(** * Whispering desktop recorder: WAV encoder, device acquisition and the
      recording-session operations

    Shallow embedding of
    [apps/whispering/src/lib/services/recorder/desktop.ts]:
    - [createWavFromFloat32] and [writeString] over a byte buffer written
      through [DataView] setters;
    - [acquireDevice], [startRecording], [stopRecording] and
      [cancelRecording] as programs over the events they issue (Tauri
      commands, file-system plugin calls, status notifications, console
      logging), run against an arbitrary stateful world. *)

From Stdlib Require Import ZArith String Ascii List Lia.
From stdpp Require Import base option list strings.

Local Open Scope Z_scope.
Local Open Scope string_scope.
Local Open Scope list_scope.

(** ** JavaScript numbers, buffers and typed arrays *)

(** Integral JS numbers are modelled as [Z]; the arithmetic of the encoder
    is exact on them as long as the values stay below 2^53. *)

Definition ToUint8 (v : Z) : Z := v mod 2 ^ 8.
Definition ToUint16 (v : Z) : Z := v mod 2 ^ 16.
Definition ToUint32 (v : Z) : Z := v mod 2 ^ 32.

(** Byte number [k] (0 = least significant) of an integer. *)
Definition byte_of (n : Z) (k : nat) : Z :=
  Z.land (Z.shiftr n (8 * Z.of_nat k)) 255.

(** An [ArrayBuffer] is its sequence of bytes, zero-filled on creation. *)
Definition ArrayBuffer (byteLength : Z) : list Z :=
  replicate (Z.to_nat byteLength) 0.

(** [DataView] setters. A write that does not fit in the buffer throws a
    [RangeError] in JS: [None] here. *)
Definition in_range (view : list Z) (byteOffset size : nat) : bool :=
  Nat.leb (byteOffset + size) (length view).

Definition setUint8 (view : list Z) (byteOffset : nat) (value : Z)
  : option (list Z) :=
  if in_range view byteOffset 1
  then Some (<[byteOffset := ToUint8 value]> view)
  else None.

Definition setUint16 (view : list Z) (byteOffset : nat) (value : Z)
    (littleEndian : bool) : option (list Z) :=
  let n := ToUint16 value in
  if in_range view byteOffset 2
  then Some (if littleEndian
             then <[S byteOffset := byte_of n 1]>
                    (<[byteOffset := byte_of n 0]> view)
             else <[S byteOffset := byte_of n 0]>
                    (<[byteOffset := byte_of n 1]> view))
  else None.

Definition setUint32 (view : list Z) (byteOffset : nat) (value : Z)
    (littleEndian : bool) : option (list Z) :=
  let n := ToUint32 value in
  if in_range view byteOffset 4
  then Some (if littleEndian
             then <[S (S (S byteOffset)) := byte_of n 3]>
                    (<[S (S byteOffset) := byte_of n 2]>
                       (<[S byteOffset := byte_of n 1]>
                          (<[byteOffset := byte_of n 0]> view)))
             else <[S (S (S byteOffset)) := byte_of n 0]>
                    (<[S (S byteOffset) := byte_of n 1]>
                       (<[S byteOffset := byte_of n 2]>
                          (<[byteOffset := byte_of n 3]> view))))
  else None.

(** [DataView] getters, used to read the header fields back. *)
Definition getUint8 (view : list Z) (byteOffset : nat) : option Z :=
  view !! byteOffset.

Definition getUint16 (view : list Z) (byteOffset : nat) (littleEndian : bool)
  : option Z :=
  b0 ← view !! byteOffset;
  b1 ← view !! S byteOffset;
  Some (if littleEndian then b0 + 2 ^ 8 * b1 else b1 + 2 ^ 8 * b0).

Definition getUint32 (view : list Z) (byteOffset : nat) (littleEndian : bool)
  : option Z :=
  b0 ← view !! byteOffset;
  b1 ← view !! S byteOffset;
  b2 ← view !! S (S byteOffset);
  b3 ← view !! S (S (S byteOffset));
  Some (if littleEndian
        then b0 + 2 ^ 8 * b1 + 2 ^ 16 * b2 + 2 ^ 24 * b3
        else b3 + 2 ^ 8 * b2 + 2 ^ 16 * b1 + 2 ^ 24 * b0).

(** An element of a [Float32Array] is an IEEE-754 binary32 value; it is
    represented by its 32-bit pattern (sign, exponent, fraction). Typed
    arrays store their elements in platform byte order, little-endian on
    every platform the application runs on. *)
Definition float32 := Z.

Definition float32_bytes (x : float32) : list Z :=
  [byte_of x 0; byte_of x 1; byte_of x 2; byte_of x 3].

(** [new Float32Array(buffer, byteOffset)] followed by [.set(source)]:
    element [i] of the source lands at bytes [byteOffset + 4 i ..]. Both
    arrays have the same element type, so elements are copied bit for
    bit. A source that does not fit throws a [RangeError]. *)
Fixpoint Float32Array_set (buffer : list Z) (byteOffset : nat)
    (source : list float32) : option (list Z) :=
  match source with
  | [] => Some buffer
  | x :: rest =>
      if in_range buffer byteOffset 4
      then Float32Array_set
             (<[S (S (S byteOffset)) := byte_of x 3]>
                (<[S (S byteOffset) := byte_of x 2]>
                   (<[S byteOffset := byte_of x 1]>
                      (<[byteOffset := byte_of x 0]> buffer))))
             (4 + byteOffset) rest
      else None
  end.

Record Blob := mkBlob { blob_bytes : list Z; blob_type : string }.

(** ** The WAV encoder *)

(** Where its characters are looked at, a JS string is its sequence of
    UTF-16 code units: [string.length] is their number and
    [string.charCodeAt(i)] is unit [i], a number from 0 to 65535. *)
Definition CodeUnits := list Z.

(** The code units of a literal written in ASCII: one per character, its
    ASCII code. *)
Fixpoint code_units (literal : string) : CodeUnits :=
  match literal with
  | EmptyString => []
  | String c rest => Z.of_nat (nat_of_ascii c) :: code_units rest
  end.

(** [for (let i = 0; i < string.length; i++)
       view.setUint8(offset + i, string.charCodeAt(i))]:
    [s] holds the units from index [i] on. *)
Fixpoint writeString_from (view : list Z) (offset : nat) (s : CodeUnits)
    (i : nat) : option (list Z) :=
  match s with
  | [] => Some view
  | charCode :: rest =>
      view' ← setUint8 view (offset + i) charCode;
      writeString_from view' offset rest (S i)
  end.

Definition writeString (view : list Z) (offset : nat) (s : CodeUnits)
  : option (list Z) :=
  writeString_from view offset s 0.

Definition bitsPerSample : Z := 32.
Definition bytesPerSample : Z := bitsPerSample / 8.
Definition headerSize : Z := 44.

(** The numbers of the encoder are integers. Its sums and products are
    those of the code as long as the code computes them exactly, that
    is while they stay within 2^53 in absolute value; beyond, the code
    rounds a product to a double before the setter wraps it. *)
Definition createWavFromFloat32 (float32Array : list float32)
    (sampleRate numChannels : Z) : option Blob :=
  let dataSize := Z.of_nat (length float32Array) * bytesPerSample in
  let totalSize := headerSize + dataSize in
  let view := ArrayBuffer totalSize in
  view ← writeString view 0 (code_units "RIFF");
  view ← setUint32 view 4 (totalSize - 8) true;
  view ← writeString view 8 (code_units "WAVE");
  view ← writeString view 12 (code_units "fmt ");
  view ← setUint32 view 16 16 true;
  view ← setUint16 view 20 3 true;
  view ← setUint16 view 22 numChannels true;
  view ← setUint32 view 24 sampleRate true;
  view ← setUint32 view 28 (sampleRate * numChannels * bytesPerSample) true;
  view ← setUint16 view 32 (numChannels * bytesPerSample) true;
  view ← setUint16 view 34 bitsPerSample true;
  view ← writeString view 36 (code_units "data");
  view ← setUint32 view 40 dataSize true;
  buffer ← Float32Array_set view (Z.to_nat headerSize) float32Array;
  Some (mkBlob buffer "audio/wav").

(** ** Results, errors and the data crossing the Tauri bridge *)

(** The declarations of [./types], [../types] and [$lib/constants/audio]
    are not among the sources; they are modelled below from the spec and
    from the values [desktop.ts] builds and inspects. *)

(** [Result] of the [wellcrafted] library: a [data] or an [error]. *)
Inductive Result (T E : Type) : Type :=
| Ok (data : T)
| Err (error : E).
Arguments Ok {T E} data.
Arguments Err {T E} error.

(** A rejected promise or thrown value; the service never looks inside. *)
Definition JsError := string.

Record TauriInvokeError := mkTauriInvokeError {
  tauri_command : string;
  tauri_error : JsError
}.

(** Modelled from the spec: [DeviceIdentifier] and [asDeviceIdentifier] of
    [../types]; section 3 makes the identifier an opaque string compared
    by string equality, and the device names are used as identifiers. *)
Abbreviation DeviceIdentifier := string (only parsing).
Definition asDeviceIdentifier (deviceName : string) : DeviceIdentifier :=
  deviceName.

(** Modelled from the spec: [DeviceAcquisitionOutcome] of [../types]
    (section 3), with the tags [acquireDevice] writes: ['success'], or
    ['fallback'] with reason ['no-device-selected'] or
    ['preferred-device-unavailable'] and a [fallbackDeviceId]. *)
Inductive FallbackReason :=
| no_device_selected
| preferred_device_unavailable.

Inductive DeviceAcquisitionOutcome :=
| outcome_success
| outcome_fallback (reason : FallbackReason)
    (fallbackDeviceId : DeviceIdentifier).

(** Modelled from the spec: [CancelRecordingResult] of
    [$lib/constants/audio] (section 4.3): a status, ['no-recording'] or
    ['cancelled'], and nothing else. *)
Inductive CancelRecordingResult :=
| status_no_recording
| status_cancelled.

(** Modelled from the spec: [StartRecordingParams] of [./types] (section
    4.3), with the fields [startRecording] reads: the [platform] tag it
    compares with ['desktop'] and the four fields it destructures from
    desktop parameters; the nullable ones are options. *)
Record StartRecordingParams := mkStartRecordingParams {
  platform : string;
  selectedDeviceId : option DeviceIdentifier;
  recordingId : string;
  outputFolder : option string;
  sampleRate : option string
}.

(** [Number.parseInt(string, radix)] is left uninterpreted: the service
    only passes its value on to the engine. *)
Inductive ParsedInt :=
| Number_parseInt (s : string) (radix : Z).

(** Arguments of [init_recording_session]. *)
Record InitArgs := mkInitArgs {
  arg_deviceIdentifier : option DeviceIdentifier;
  arg_recordingId : string;
  arg_outputFolder : option string;
  arg_sampleRate : option ParsedInt
}.

(** The part of the JS runtime that is kept abstract: the numbers that
    cross the bridge (IEEE doubles), and the rounding of a double to
    binary32 that [new Float32Array(array)] applies to every element. *)
Class Platform := {
  Number : Type;
  fround : Number → float32
}.

Section DataModel.
Context `{Platform}.

(** Payload of [stop_recording]. [sampleRate] and [channels] are
    integral. *)
Record AudioRecording := mkAudioRecording {
  audioData : list Number;
  rec_sampleRate : Z;
  channels : Z;
  durationSeconds : Number;
  filePath : option string
}.

(** [new Float32Array(array)] *)
Definition Float32Array_from (array : list Number) : list float32 :=
  map fround array.
End DataModel.

(** Modelled from the spec: [RecorderServiceError] and
    [RecorderServiceErr] of [./types] (section 7): an error is the
    [message], [context] and [cause] given at each of the places
    [desktop.ts] builds one. *)
Inductive ErrorCause :=
| cause_undefined
| cause_invoke (e : TauriInvokeError)
| cause_thrown (e : JsError).

Inductive ErrorContext :=
| ctx_none
| ctx_error (error : TauriInvokeError)
| ctx_params (params : StartRecordingParams)
| ctx_devices (selectedDeviceId : option DeviceIdentifier)
    (deviceIds : list DeviceIdentifier)
| ctx_session (selectedDeviceId deviceIdentifier : option DeviceIdentifier)
| ctx_capture (deviceIdentifier : option DeviceIdentifier)
    (deviceOutcome : DeviceAcquisitionOutcome)
| ctx_operation (operation : string)
| ctx_file (operation filePath : string).

Record RecorderServiceError := mkRecorderServiceError {
  message : string;
  context : ErrorContext;
  cause : ErrorCause
}.

Definition RecorderServiceErr {T} (message : string) (context : ErrorContext)
    (cause : ErrorCause) : Result T RecorderServiceError :=
  Err (mkRecorderServiceError message context cause).

(** JS truthiness of a nullable string: [null], [undefined] and the empty
    string are falsy. *)
Definition truthy (s : option string) : bool :=
  match s with
  | Some EmptyString => false
  | Some (String _ _) => true
  | None => false
  end.

(** [array.includes(x)] on an array of strings. *)
Definition includes (l : list string) (x : option string) : bool :=
  match x with
  | Some s => existsb (String.eqb s) l
  | None => false
  end.

(** ** Events issued by the service, and programs over them *)

Section Events.
Context `{Platform}.

(** Tauri commands, indexed by the payload type [T] of [invoke<T>]. *)
Inductive Command : Type → Type :=
| enumerate_recording_devices : Command (list string)
| get_current_recording_id : Command (option string)
| init_recording_session (args : InitArgs) : Command unit
| start_recording : Command unit
| stop_recording : Command AudioRecording
| close_recording_session : Command unit.

Definition command_name {T} (c : Command T) : string :=
  match c with
  | enumerate_recording_devices => "enumerate_recording_devices"
  | get_current_recording_id => "get_current_recording_id"
  | init_recording_session _ => "init_recording_session"
  | start_recording => "start_recording"
  | stop_recording => "stop_recording"
  | close_recording_session => "close_recording_session"
  end.

(** Every interaction with the outside, indexed by what it answers:
    [tauriInvoke] (resolves or rejects), [readFile] and [remove] of the
    file-system plugin (return or throw), the [sendStatus] callback and
    [console.error]. *)
Inductive Event : Type → Type :=
| TauriInvoke {T} (c : Command T) : Event (T + JsError)
| ReadFile (path : string) : Event (list Z + JsError)
| Remove (path : string) : Event (unit + JsError)
| SendStatus (title description : string) : Event unit
| ConsoleError (label : string) (value : ErrorCause) : Event unit.

Inductive Prog (A : Type) : Type :=
| Ret (a : A)
| Vis {X : Type} (e : Event X) (k : X → Prog A).
Arguments Ret {A} a.
Arguments Vis {A X} e k.

Fixpoint bind {A B} (m : Prog A) (f : A → Prog B) : Prog B :=
  match m with
  | Ret a => f a
  | Vis e k => Vis e (λ x, bind (k x) f)
  end.

#[global] Instance Prog_ret : MRet Prog := @Ret.
#[global] Instance Prog_bind : MBind Prog := λ A B f m, bind m f.

Definition trigger {X} (e : Event X) : Prog X := Vis e Ret.

(** One entry of the trace: what was called and what came back. *)
Inductive Call :=
| enumerated (r : list string + JsError)
| got_recording_id (r : option string + JsError)
| session_inited (args : InitArgs) (r : unit + JsError)
| capture_started (r : unit + JsError)
| capture_stopped (r : AudioRecording + JsError)
| session_closed (r : unit + JsError)
| file_read (path : string) (r : list Z + JsError)
| file_removed (path : string) (r : unit + JsError)
| status_sent (title description : string)
| error_logged (label : string) (value : ErrorCause).

Definition log_invoke {T} (c : Command T) : T + JsError → Call :=
  match c in Command T return T + JsError → Call with
  | enumerate_recording_devices => enumerated
  | get_current_recording_id => got_recording_id
  | init_recording_session args => session_inited args
  | start_recording => capture_started
  | stop_recording => capture_stopped
  | close_recording_session => session_closed
  end.

Definition log {X} (e : Event X) : X → Call :=
  match e in Event X return X → Call with
  | TauriInvoke c => log_invoke c
  | ReadFile path => file_read path
  | Remove path => file_removed path
  | SendStatus title description => λ _, status_sent title description
  | ConsoleError label value => λ _, error_logged label value
  end.

(** Running a program in a world: the world answers every event and
    moves to its next state; the calls are recorded in order. *)
Record Run (A W : Type) := mkRun {
  result : A;
  world : W;
  trace : list Call
}.
Arguments mkRun {A W} result world trace.
Arguments result {A W} r.
Arguments world {A W} r.
Arguments trace {A W} r.

Fixpoint run {W A} (handle : ∀ X, Event X → W → X * W) (p : Prog A)
    (w : W) : Run A W :=
  match p with
  | Ret a => mkRun a w []
  | Vis e k =>
      let xw := handle _ e w in
      let r := run handle (k xw.1) xw.2 in
      mkRun (result r) (world r) (log e xw.1 :: trace r)
  end.
End Events.

Arguments Ret {_ A} a.
Arguments Vis {_ A X} e k.
Arguments mkRun {_ A W} result world trace.
Arguments result {_ A W} r.
Arguments world {_ A W} r.
Arguments trace {_ A W} r.

(** ** The desktop recorder service *)

Section Service.
Context `{Platform}.

(** [invoke<T>(command, args)]: [tryAsync] around [tauriInvoke], a
    rejection mapped to a [TauriInvokeError] naming the command. *)
Definition invoke {T} (c : Command T) : Prog (Result T TauriInvokeError) :=
  r ← trigger (TauriInvoke c);
  mret (match r with
        | inl data => Ok data
        | inr error => Err (mkTauriInvokeError (command_name c) error)
        end).

Definition sendStatus (title description : string) : Prog unit :=
  trigger (SendStatus title description).

Definition console_error (label : string) (value : ErrorCause) : Prog unit :=
  trigger (ConsoleError label value).

Definition enumerateRecordingDeviceIds
  : Prog (Result (list DeviceIdentifier) RecorderServiceError) :=
  r ← invoke enumerate_recording_devices;
  match r with
  | Err enumerateRecordingDevicesError =>
      mret (RecorderServiceErr "Failed to enumerate recording devices"
              ctx_none (cause_invoke enumerateRecordingDevicesError))
  | Ok deviceNames => mret (Ok (map asDeviceIdentifier deviceNames))
  end.

Definition getCurrentRecordingId
  : Prog (Result (option string) RecorderServiceError) :=
  r ← invoke get_current_recording_id;
  match r with
  | Err getCurrentRecordingIdError =>
      mret (RecorderServiceErr
              "We encountered an issue while getting the current recording. This could be because your microphone is being used by another app, your microphone permissions are denied, or the selected recording device is disconnected"
              (ctx_error getCurrentRecordingIdError)
              (cause_invoke getCurrentRecordingIdError))
  | Ok recordingId => mret (Ok recordingId)
  end.

(** The closure [acquireDevice] of [startRecording], with the two
    variables it captures as arguments. *)
Definition acquireDevice (deviceIds : list DeviceIdentifier)
    (selectedDeviceId : option DeviceIdentifier)
  : Prog (Result DeviceAcquisitionOutcome RecorderServiceError) :=
  let no_device : Result DeviceAcquisitionOutcome RecorderServiceError :=
    RecorderServiceErr
      (if truthy selectedDeviceId
       then "We couldn't find the selected microphone. Make sure it's connected and try again!"
       else "We couldn't find any microphones. Make sure they're connected and try again!")
      (ctx_devices selectedDeviceId deviceIds) cause_undefined in
  match deviceIds !! 0%nat with
  | None => mret no_device
  | Some fallbackDeviceId =>
      if negb (truthy (Some fallbackDeviceId)) then mret no_device
      else if negb (truthy selectedDeviceId) then
        _ ← sendStatus "🔍 No Device Selected"
              "No worries! We'll find the best microphone for you automatically...";
        mret (Ok (outcome_fallback no_device_selected fallbackDeviceId))
      else
        let deviceExists := includes deviceIds selectedDeviceId in
        if deviceExists then mret (Ok outcome_success)
        else
          _ ← sendStatus "⚠️ Finding a New Microphone"
                "That microphone isn't available. Let's try finding another one...";
          mret (Ok (outcome_fallback preferred_device_unavailable
                      fallbackDeviceId))
  end.

(** [deviceOutcome.outcome === 'success' ? selectedDeviceId
                                         : deviceOutcome.fallbackDeviceId] *)
Definition effective_device (selectedDeviceId : option DeviceIdentifier)
    (deviceOutcome : DeviceAcquisitionOutcome) : option DeviceIdentifier :=
  match deviceOutcome with
  | outcome_success => selectedDeviceId
  | outcome_fallback _ fallbackDeviceId => Some fallbackDeviceId
  end.

Definition startRecording (params : StartRecordingParams)
  : Prog (Result DeviceAcquisitionOutcome RecorderServiceError) :=
  if negb (String.eqb (platform params) "desktop") then
    mret (RecorderServiceErr
            "Desktop recorder received non-desktop parameters"
            (ctx_params params) cause_undefined)
  else
    r ← enumerateRecordingDeviceIds;
    match r with
    | Err enumerateError => mret (Err enumerateError)
    | Ok deviceIds =>
        r ← acquireDevice deviceIds (selectedDeviceId params);
        match r with
        | Err acquireDeviceError => mret (Err acquireDeviceError)
        | Ok deviceOutcome =>
            let deviceIdentifier :=
              effective_device (selectedDeviceId params) deviceOutcome in
            _ ← sendStatus "🎤 Setting Up"
                  "Initializing your recording session and checking microphone access...";
            let sampleRateNum :=
              if truthy (sampleRate params)
              then (λ s, Number_parseInt s 10) <$> sampleRate params
              else None in
            r ← invoke (init_recording_session
                          {| arg_deviceIdentifier := deviceIdentifier;
                             arg_recordingId := recordingId params;
                             arg_outputFolder :=
                               if truthy (outputFolder params)
                               then outputFolder params else None;
                             arg_sampleRate := sampleRateNum |});
            match r with
            | Err initRecordingSessionError =>
                mret (RecorderServiceErr
                        "We encountered an issue while setting up your recording session. This could be because your microphone is being used by another app, your microphone permissions are denied, or the selected recording device is disconnected"
                        (ctx_session (selectedDeviceId params)
                           deviceIdentifier)
                        (cause_invoke initRecordingSessionError))
            | Ok _ =>
                _ ← sendStatus "🎙️ Starting Recording"
                      "Recording session initialized, now starting to capture audio...";
                r ← invoke start_recording;
                match r with
                | Err startRecordingError =>
                    mret (RecorderServiceErr
                            "Unable to start recording. Please check your microphone and try again."
                            (ctx_capture deviceIdentifier deviceOutcome)
                            (cause_invoke startRecordingError))
                | Ok _ => mret (Ok deviceOutcome)
                end
            end
        end
    end.

(** The tail shared by both branches of [stopRecording]: close the
    session, log a failure, return the blob. *)
Definition close_after_stop (blob : Blob)
  : Prog (option (Result Blob RecorderServiceError)) :=
  _ ← sendStatus "🔄 Closing Session" "Cleaning up recording resources...";
  c ← invoke close_recording_session;
  _ ← match c with
      | Err closeError =>
          console_error "Failed to close recording session:"
            (cause_invoke closeError)
      | Ok _ => mret tt
      end;
  mret (Some (Ok blob)).

(** [None] stands for an exception escaping the function (the encoder
    is the only place that could throw outside a [try]). *)
Definition stopRecording : Prog (option (Result Blob RecorderServiceError)) :=
  r ← invoke stop_recording;
  match r with
  | Err stopRecordingError =>
      mret (Some (RecorderServiceErr
                    "Unable to save your recording. Please try again."
                    (ctx_operation "stopRecording")
                    (cause_invoke stopRecordingError)))
  | Ok audioRecording =>
      if truthy (filePath audioRecording) then
        let path := default EmptyString (filePath audioRecording) in
        _ ← sendStatus "📁 Reading Recording"
              "Loading your recording from disk...";
        f ← trigger (ReadFile path);
        match f with
        | inl fileBytes => close_after_stop (mkBlob fileBytes "audio/wav")
        | inr error =>
            mret (Some (RecorderServiceErr
                          "Unable to read recording file. Please try again."
                          (ctx_file "readRecordingFile" path)
                          (cause_thrown error)))
        end
      else
        let float32Array := Float32Array_from (audioData audioRecording) in
        match createWavFromFloat32 float32Array
                (rec_sampleRate audioRecording) (channels audioRecording) with
        | Some blob => close_after_stop blob
        | None => mret None
        end
  end.

Definition cancelRecording
  : Prog (Result CancelRecordingResult RecorderServiceError) :=
  r ← invoke get_current_recording_id;
  match r with
  | Err getRecordingIdError =>
      mret (RecorderServiceErr
              "Unable to check recording state. Please try closing the app and starting again."
              (ctx_operation "cancelRecording")
              (cause_invoke getRecordingIdError))
  | Ok recordingId =>
      if negb (truthy recordingId) then mret (Ok status_no_recording)
      else
        _ ← sendStatus "🛑 Cancelling"
              "Safely stopping your recording and cleaning up resources...";
        s ← invoke stop_recording;
        (* only [data] is taken from the result: it is null on failure *)
        let audioRecording :=
          match s with Ok data => Some data | Err _ => None end in
        let path := audioRecording ≫= filePath in
        _ ← (if truthy path then
               d ← trigger (Remove (default EmptyString path));
               match d with
               | inl _ => mret tt
               | inr error =>
                   console_error "Failed to delete recording file:"
                     (cause_thrown error)
               end
             else mret tt);
        _ ← sendStatus "🔄 Closing Session"
              "Cleaning up recording resources...";
        c ← invoke close_recording_session;
        _ ← match c with
            | Err closeError =>
                console_error "Failed to close recording session:"
                  (cause_invoke closeError)
            | Ok _ => mret tt
            end;
        mret (Ok status_cancelled)
  end.
End Service.

(** ** Vocabulary of the statements *)

(** The character codes of an ASCII string, and a slice of a buffer. *)
Fixpoint char_codes (s : string) : list Z :=
  match s with
  | EmptyString => []
  | String c rest => Z.of_nat (nat_of_ascii c) :: char_codes rest
  end.

Definition bytes_at (buffer : list Z) (offset len : nat) : list Z :=
  take len (drop offset buffer).

Definition u16_le (v : Z) : list Z :=
  [byte_of (ToUint16 v) 0; byte_of (ToUint16 v) 1].

Definition u32_le (v : Z) : list Z :=
  [byte_of (ToUint32 v) 0; byte_of (ToUint32 v) 1;
   byte_of (ToUint32 v) 2; byte_of (ToUint32 v) 3].

(** The 44 header bytes the encoder writes for [n] samples: every field
    goes through the wrap-around of its [DataView] setter. *)
Definition wav_header (n : nat) (sampleRate numChannels : Z) : list Z :=
  char_codes "RIFF" ++ u32_le (44 + Z.of_nat n * 4 - 8) ++
  char_codes "WAVE" ++ char_codes "fmt " ++ u32_le 16 ++ u16_le 3 ++
  u16_le numChannels ++ u32_le sampleRate ++
  u32_le (sampleRate * numChannels * 4) ++ u16_le (numChannels * 4) ++
  u16_le 32 ++ char_codes "data" ++ u32_le (Z.of_nat n * 4).

(** The layout of section 4.1 of the specification, read off a buffer:
    size, the four tags, the nine header fields equal to their formulas,
    and the samples from offset 44 on. *)
Definition wav_layout (samples : list float32) (sampleRate numChannels : Z)
    (buffer : list Z) : Prop :=
  let n := Z.of_nat (length samples) in
  Z.of_nat (length buffer) = 44 + 4 * n ∧
  bytes_at buffer 0 4 = char_codes "RIFF" ∧
  bytes_at buffer 8 4 = char_codes "WAVE" ∧
  bytes_at buffer 12 4 = char_codes "fmt " ∧
  bytes_at buffer 36 4 = char_codes "data" ∧
  getUint32 buffer 4 true = Some (44 + 4 * n - 8) ∧
  getUint32 buffer 16 true = Some 16 ∧
  getUint16 buffer 20 true = Some 3 ∧
  getUint16 buffer 22 true = Some numChannels ∧
  getUint32 buffer 24 true = Some sampleRate ∧
  getUint32 buffer 28 true = Some (sampleRate * numChannels * 4) ∧
  getUint16 buffer 32 true = Some (numChannels * 4) ∧
  getUint16 buffer 34 true = Some 32 ∧
  getUint32 buffer 40 true = Some (4 * n) ∧
  drop 44 buffer = samples ≫= float32_bytes.

(** ** Concrete worlds *)

(** Numbers restricted to the binary32 values, given by their bit
    patterns: rounding to binary32 leaves them unchanged. *)
Definition binary32_numbers : Platform :=
  {| Number := float32; fround := λ x, x |}.

Section Script.
Context `{Platform}.

(** A world without state that answers every call from a fixed
    script. *)
Record Script := mkScript {
  on_enumerate : list string + JsError;
  on_get_id : option string + JsError;
  on_init : unit + JsError;
  on_start : unit + JsError;
  on_stop : AudioRecording + JsError;
  on_close : unit + JsError;
  on_read : list Z + JsError;
  on_remove : unit + JsError
}.

Definition scripted_invoke (s : Script) {T} (c : Command T) : T + JsError :=
  match c in Command T return T + JsError with
  | enumerate_recording_devices => on_enumerate s
  | get_current_recording_id => on_get_id s
  | init_recording_session _ => on_init s
  | start_recording => on_start s
  | stop_recording => on_stop s
  | close_recording_session => on_close s
  end.

Definition scripted (s : Script) (X : Type) (e : Event X) (w : unit)
  : X * unit :=
  (match e in Event X return X with
   | TauriInvoke c => scripted_invoke s c
   | ReadFile _ => on_read s
   | Remove _ => on_remove s
   | SendStatus _ _ => tt
   | ConsoleError _ _ => tt
   end, w).
End Script.

Definition two_devices : list string :=
  ["Built-in Microphone"; "USB Microphone"].

(** A recording the engine wrote to disk, one it returns in memory (the
    samples 1.0 and -1.0), and one whose path is the empty string. *)
Definition recording_in_file : @AudioRecording binary32_numbers :=
  @mkAudioRecording binary32_numbers [] 16000 1 0
    (Some "/tmp/recording.wav").

Definition recording_in_memory : @AudioRecording binary32_numbers :=
  @mkAudioRecording binary32_numbers [1065353216; 3212836864] 16000 1 0
    None.

Definition recording_with_empty_path : @AudioRecording binary32_numbers :=
  @mkAudioRecording binary32_numbers [] 16000 1 0 (Some EmptyString).

(** A world with two microphones where capture starts and files can be
    read; the other answers are the arguments. *)
Definition studio (id : option string + JsError) (init : unit + JsError)
    (stop : @AudioRecording binary32_numbers + JsError)
    (remove close : unit + JsError) : @Script binary32_numbers :=
  @mkScript binary32_numbers (inl two_devices) id init (inl tt) stop close
    (inl [82; 73; 70; 70]) remove.

Definition desktop_params (selected : option DeviceIdentifier)
  : StartRecordingParams :=
  {| platform := "desktop"; selectedDeviceId := selected;
     recordingId := "rec-1"; outputFolder := None; sampleRate := None |}.

(** A world where a recording with id [rec-1] is under way and written
    to disk; the devices, the start of the capture and the read of the
    file are the arguments. *)
Definition room (devices : list string + JsError) (start : unit + JsError)
    (read : list Z + JsError) : @Script binary32_numbers :=
  @mkScript binary32_numbers devices (inl (Some "rec-1")) (inl tt) start
    (inl recording_in_file) (inl tt) read (inl tt).

(** ** Observing a trace *)

Section Observations.
Context `{Platform}.

(** The calls that reach the engine or the file system: everything but
    the status notifications and the console output. *)
Definition is_notification (c : Call) : bool :=
  match c with
  | status_sent _ _ | error_logged _ _ => true
  | _ => false
  end.

Definition engine_calls (calls : list Call) : list Call :=
  List.filter (λ c, negb (is_notification c)) calls.
End Observations.

(** ** Programs over any family of calls

    The same construction as for the recorder service, for the two
    other modules: a program is a tree of calls, and running it in a
    world records what was called and what came back. *)

Module Free.
Section Free.
Context {E : Type → Type}.

Inductive Prog (A : Type) : Type :=
| Ret (a : A)
| Vis {X : Type} (e : E X) (k : X → Prog A).
Arguments Ret {A} a.
Arguments Vis {A X} e k.

Fixpoint bind {A B} (m : Prog A) (f : A → Prog B) : Prog B :=
  match m with
  | Ret a => f a
  | Vis e k => Vis e (λ x, bind (k x) f)
  end.

Definition trigger {X} (e : E X) : Prog X := Vis e Ret.

Record Run (C A W : Type) := mkRun {
  result : A;
  world : W;
  trace : list C
}.
Arguments mkRun {C A W} result world trace.
Arguments result {C A W} r.
Arguments world {C A W} r.
Arguments trace {C A W} r.

Fixpoint run {C W A} (log : ∀ X, E X → X → C)
    (handle : ∀ X, E X → W → X * W) (p : Prog A) (w : W) : Run C A W :=
  match p with
  | Ret a => mkRun a w []
  | Vis e k =>
      let xw := handle _ e w in
      let r := run log handle (k xw.1) xw.2 in
      mkRun (result r) (world r) (log _ e xw.1 :: trace r)
  end.
End Free.

Arguments Prog E A : clear implicits.
Arguments Ret {E A} a.
Arguments Vis {E A X} e k.
Arguments mkRun {C A W} result world trace.
Arguments result {C A W} r.
Arguments world {C A W} r.
Arguments trace {C A W} r.

#[global] Instance Prog_ret {E} : MRet (Prog E) := @Ret E.
#[global] Instance Prog_bind {E} : MBind (Prog E) := λ A B f m, bind m f.
End Free.

(** ** The whisper.cpp transcription service

    [apps/whispering/src/lib/services/transcription/whispercpp.ts]. The
    service consumes the blob a recorder returns. *)

Module WhisperCpp.

(** A value the [transcribe_audio_whisper] command rejects with, as far
    as the service looks at it: its [name] and [message] properties when
    they are strings, what [extractErrorMessage] of [wellcrafted] makes
    of it, and [String(value)]. *)
Record Thrown := mkThrown {
  thrown_name : option string;
  thrown_message : option string;
  extracted_message : string;
  stringified : string
}.

(** [WhisperingError] and [WhisperingErr] of [$lib/result] are not among
    the sources: an error is the title, description and action given at
    each place the service builds one. The error of a [more-details]
    action is the thrown value itself or a [new Error(message)]. *)
Inductive DetailsError :=
| thrown_value (unknownError : Thrown)
| new_Error (message : string).

Inductive Action :=
| action_link (label href : string)
| action_more_details (error : DetailsError).

Record WhisperingError := mkWhisperingError {
  title : string;
  description : string;
  action : Action
}.

Definition WhisperingErr {T} (title description : string) (action : Action)
  : Result T WhisperingError :=
  Err (mkWhisperingError title description action).

(** [WhisperCppErrorType]: the arktype validator accepts an object whose
    [name] is one of four literals and whose [message] is a string, and
    returns it; anything else gives [type.errors] ([None]). *)
Definition known_names : list string :=
  ["AudioReadError"; "GpuError"; "ModelLoadError"; "TranscriptionError"].

Definition WhisperCppErrorType (unknownError : Thrown)
  : option (string * string) :=
  match thrown_name unknownError, thrown_message unknownError with
  | Some name, Some message =>
      if existsb (String.eqb name) known_names then Some (name, message)
      else None
  | _, _ => None
  end.

(** The [catch] handler of the transcription call. *)
Definition catch_transcribe {T} (unknownError : Thrown)
  : Result T WhisperingError :=
  match WhisperCppErrorType unknownError with
  | None =>
      WhisperingErr "❌ Unexpected Whisper C++ Error"
        (extracted_message unknownError)
        (action_more_details (thrown_value unknownError))
  | Some (name, message) =>
      if String.eqb name "ModelLoadError" then
        WhisperingErr "🤖 Model Loading Error" message
          (action_more_details (new_Error message))
      else if String.eqb name "GpuError" then
        WhisperingErr "🎮 GPU Error" message
          (action_link "Configure settings" "/settings/transcription")
      else if String.eqb name "AudioReadError" then
        WhisperingErr "🔊 Audio Read Error" message
          (action_more_details (new_Error message))
      else if String.eqb name "TranscriptionError" then
        WhisperingErr "❌ Transcription Error" message
          (action_more_details (new_Error message))
      else
        WhisperingErr "❌ Whisper C++ Error" "An unexpected error occurred."
          (action_more_details (new_Error (stringified unknownError)))
  end.

(** Arguments of the [transcribe_audio_whisper] command. *)
Record TranscribeArgs := mkTranscribeArgs {
  audioData : list Z;
  modelPath : string;
  language : option string
}.

(** The two calls of the service: [exists] of the file-system plugin and
    the Tauri command; both resolve or reject. *)
Inductive Event : Type → Type :=
| Exists (path : string) : Event (bool + JsError)
| InvokeTranscribe (args : TranscribeArgs) : Event (string + Thrown).

Inductive Call :=
| existence_checked (path : string) (r : bool + JsError)
| transcription_invoked (args : TranscribeArgs) (r : string + Thrown).

Definition log (X : Type) (e : Event X) : X → Call :=
  match e in Event X return X → Call with
  | Exists path => existence_checked path
  | InvokeTranscribe args => transcription_invoked args
  end.

Definition run {W A} (handle : ∀ X, Event X → W → X * W)
    (p : Free.Prog Event A) (w : W) : Free.Run Call A W :=
  Free.run log handle p w.

(** The double quote of the template string. *)
Definition quote : string := String (ascii_of_nat 34) EmptyString.

(** [transcribe(audioBlob, { outputLanguage, modelPath })]. The bytes of
    the blob are [await audioBlob.arrayBuffer()] seen through a
    [Uint8Array]. *)
Definition transcribe (audioBlob : Blob) (outputLanguage modelPath : string)
  : Free.Prog Event (Result string WhisperingError) :=
  if negb (truthy (Some modelPath)) then
    mret (WhisperingErr "📁 Model File Required"
            "Please select a Whisper model file in settings."
            (action_link "Configure model" "/settings/transcription"))
  else
    r ← Free.trigger (Exists modelPath);
    let isExists := match r with inl data => data | inr _ => false end in
    if negb isExists then
      mret (WhisperingErr "❌ Model File Not Found"
              (String.append "The model file "
                 (String.append quote
                    (String.append modelPath
                       (String.append quote " does not exist."))))
              (action_link "Select model" "/settings/transcription"))
    else
      let audioData := blob_bytes audioBlob in
      r ← Free.trigger (InvokeTranscribe
                     {| audioData := audioData;
                        modelPath := modelPath;
                        language :=
                          if String.eqb outputLanguage "auto" then None
                          else Some outputLanguage |});
      mret (match r with
            | inl text => Ok text
            | inr unknownError => catch_transcribe unknownError
            end).

(** A world without state that answers the two calls from a script. *)
Definition scripted (model_exists : bool + JsError)
    (transcription : string + Thrown) (X : Type) (e : Event X) (w : unit)
  : X * unit :=
  (match e in Event X return X with
   | Exists _ => model_exists
   | InvokeTranscribe _ => transcription
   end, w).

(** Two rejections: the engine's GPU error, an object with a [name] and
    a [message], and a bare string. *)
Definition gpu_out_of_memory : Thrown :=
  {| thrown_name := Some "GpuError";
     thrown_message := Some "out of memory";
     extracted_message := "out of memory";
     stringified := "[object Object]" |}.

Definition engine_crashed : Thrown :=
  {| thrown_name := None;
     thrown_message := None;
     extracted_message := "engine crashed";
     stringified := "engine crashed" |}.

End WhisperCpp.

(** ** The browser recorder over RecordRTC

    [src/unnamed/part_000]. The module variable [recorder] is threaded
    through the two functions; handles of streams and recorders are
    given by the platform. The function passed to
    [recorder.stopRecording] runs later, when RecordRTC calls it, and
    reads [recorder] at that time: [stopRecording] is the executor of
    the promise, [stopRecording_callback] that function. The calls into
    RecordRTC are taken not to throw. *)

Module WebRecorder.

Definition Stream := nat.
Definition RecordRTC := nat.

Record Options := mkOptions {
  type : string;
  mimeType : string;
  recorderType : string;
  numberOfAudioChannels : Z;
  checkForInactiveTracks : bool;
  bufferSize : Z
}.

Definition options : Options :=
  {| type := "audio";
     mimeType := "audio/wav";
     recorderType := "StereoAudioRecorder";
     numberOfAudioChannels := 2;
     checkForInactiveTracks := true;
     bufferSize := 16384 |}.

Inductive Event : Type → Type :=
| GetUserMedia : Event (Stream + JsError)
| NewRecordRTC (stream : Stream) (options : Options) : Event RecordRTC
| RecorderStart (recorder : RecordRTC) : Event unit
| RecorderStop (recorder : RecordRTC) : Event unit
| GetBlob (recorder : RecordRTC) : Event Blob
| Destroy (recorder : RecordRTC) : Event unit.

Inductive Call :=
| media_requested (r : Stream + JsError)
| recorder_created (stream : Stream) (options : Options)
    (recorder : RecordRTC)
| recorder_started (recorder : RecordRTC)
| stop_requested (recorder : RecordRTC)
| blob_taken (recorder : RecordRTC) (audioBlob : Blob)
| recorder_destroyed (recorder : RecordRTC).

Definition log (X : Type) (e : Event X) : X → Call :=
  match e in Event X return X → Call with
  | GetUserMedia => media_requested
  | NewRecordRTC stream options => recorder_created stream options
  | RecorderStart recorder => λ _, recorder_started recorder
  | RecorderStop recorder => λ _, stop_requested recorder
  | GetBlob recorder => blob_taken recorder
  | Destroy recorder => λ _, recorder_destroyed recorder
  end.

Definition run {W A} (handle : ∀ X, Event X → W → X * W)
    (p : Free.Prog Event A) (w : W) : Free.Run Call A W :=
  Free.run log handle p w.

(** How a promise is settled; an [Error] is its message. *)
Inductive Settled (A : Type) : Type :=
| Resolved (value : A)
| Rejected (error : JsError).
Arguments Resolved {A} value.
Arguments Rejected {A} error.

(** Each function takes the current [recorder] and returns the new
    one. *)
Definition startRecording (recorder : option RecordRTC)
  : Free.Prog Event (Settled unit * option RecordRTC) :=
  s ← Free.trigger GetUserMedia;
  match s with
  | inr error => mret (Rejected error, recorder)
  | inl stream =>
      created ← Free.trigger (NewRecordRTC stream options);
      _ ← Free.trigger (RecorderStart created);
      mret (Resolved tt, Some created)
  end.

(** The executor: the promise is rejected at once ([Some]) or waits for
    the callback ([None]). *)
Definition stopRecording (recorder : option RecordRTC)
  : Free.Prog Event (option (Settled Blob) * option RecordRTC) :=
  match recorder with
  | None => mret (Some (Rejected "Recorder is not initialized."), recorder)
  | Some current =>
      _ ← Free.trigger (RecorderStop current);
      mret (None, recorder)
  end.

Definition stopRecording_callback (recorder : option RecordRTC)
  : Free.Prog Event (Settled Blob * option RecordRTC) :=
  match recorder with
  | None => mret (Rejected "Recorder is not initialized.", recorder)
  | Some current =>
      audioBlob ← Free.trigger (GetBlob current);
      _ ← Free.trigger (Destroy current);
      mret (Resolved audioBlob, None)
  end.

(** A world that hands out recorder handles in sequence (its state is
    the next handle), grants the microphone as stream 7 and returns a
    four-byte blob. *)
Definition counting (X : Type) (e : Event X) (next : nat) : X * nat :=
  match e in Event X return X * nat with
  | GetUserMedia => (inl 7%nat, next)
  | NewRecordRTC _ _ => (next, S next)
  | RecorderStart _ => (tt, next)
  | RecorderStop _ => (tt, next)
  | GetBlob _ => (mkBlob [82; 73; 70; 70] "audio/wav", next)
  | Destroy _ => (tt, next)
  end.

End WebRecorder.

(** * Properties *)

(** ** Bytes of an integer *)

Lemma byte_of_div_mod n k :
  byte_of n k = (n / 2 ^ (8 * Z.of_nat k)) mod 2 ^ 8.
Proof.
  unfold byte_of. change 255 with (Z.ones 8).
  rewrite Z.land_ones by lia. rewrite Z.shiftr_div_pow2 by lia. reflexivity.
Qed.

Lemma u16_recompose n :
  0 ≤ n < 2 ^ 16 → byte_of n 0 + 2 ^ 8 * byte_of n 1 = n.
Proof.
  intros Hn. rewrite !byte_of_div_mod.
  change (2 ^ (8 * Z.of_nat 0)) with 1. change (2 ^ (8 * Z.of_nat 1)) with 256.
  change (2 ^ 8) with 256. change (2 ^ 16) with 65536 in Hn.
  rewrite Z.div_1_r.
  rewrite (Z.mod_small (n / 256) 256)
    by (split; [apply Z.div_pos; lia | apply Z.div_lt_upper_bound; lia]).
  pose proof (Z.div_mod n 256). lia.
Qed.

Lemma u32_recompose n :
  0 ≤ n < 2 ^ 32 →
  byte_of n 0 + 2 ^ 8 * byte_of n 1 + 2 ^ 16 * byte_of n 2 +
  2 ^ 24 * byte_of n 3 = n.
Proof.
  intros Hn. rewrite !byte_of_div_mod.
  change (2 ^ (8 * Z.of_nat 0)) with 1. change (2 ^ (8 * Z.of_nat 1)) with 256.
  change (2 ^ (8 * Z.of_nat 2)) with 65536.
  change (2 ^ (8 * Z.of_nat 3)) with 16777216.
  change (2 ^ 8) with 256. change (2 ^ 16) with 65536.
  change (2 ^ 24) with 16777216. change (2 ^ 32) with 4294967296 in Hn.
  rewrite Z.div_1_r.
  rewrite (Z.mod_small (n / 16777216) 256)
    by (split; [apply Z.div_pos; lia | apply Z.div_lt_upper_bound; lia]).
  replace (n / 65536) with (n / 256 / 256)
    by (rewrite Z.div_div by lia; reflexivity).
  replace (n / 16777216) with (n / 256 / 256 / 256)
    by (rewrite !Z.div_div by lia; reflexivity).
  pose proof (Z.div_mod n 256).
  pose proof (Z.div_mod (n / 256) 256).
  pose proof (Z.div_mod (n / 256 / 256) 256).
  lia.
Qed.

(** ** The encoder on small inputs *)

Example wav_no_samples :
  blob_bytes <$> createWavFromFloat32 [] 16000 1 =
  Some [82; 73; 70; 70; 36; 0; 0; 0; 87; 65; 86; 69;
        102; 109; 116; 32; 16; 0; 0; 0; 3; 0; 1; 0;
        128; 62; 0; 0; 0; 250; 0; 0; 4; 0; 32; 0;
        100; 97; 116; 97; 0; 0; 0; 0].
Proof. reflexivity. Qed.

Example wav_one_sample :
  drop 40 <$> (blob_bytes <$> createWavFromFloat32 [1065353216] 44100 2) =
  Some [4; 0; 0; 0; 0; 0; 128; 63].
Proof. reflexivity. Qed.

(** ** The encoder *)

(** Copying the samples behind a prefix that is already in place. *)
Lemma Float32Array_set_app (source : list float32) : ∀ prefix : list Z,
  Float32Array_set (prefix ++ replicate (4 * length source) 0)
    (length prefix) source
  = Some (prefix ++ (source ≫= float32_bytes)).
Proof.
  induction source as [|x rest IH]; intros prefix.
  - reflexivity.
  - change (length (x :: rest)) with (S (length rest)).
    replace (4 * S (length rest))%nat with (4 + 4 * length rest)%nat by lia.
    rewrite replicate_add. cbn [replicate Float32Array_set].
    unfold in_range.
    destruct (Nat.leb_spec (length prefix + 4)
                (length (prefix ++ [0; 0; 0; 0] ++
                           replicate (4 * length rest) 0))) as [_|Hlt];
      [|rewrite length_app in Hlt; simpl in Hlt; lia].
    replace (S (S (S (length prefix)))) with (length prefix + 3)%nat by lia.
    replace (S (S (length prefix))) with (length prefix + 2)%nat by lia.
    replace (S (length prefix)) with (length prefix + 1)%nat by lia.
    rewrite <- (Nat.add_0_r (length prefix)) at 4.
    rewrite !insert_app_r. cbn [app list_insert insert].
    specialize (IH (prefix ++ float32_bytes x)).
    rewrite length_app, <- app_assoc in IH.
    change (length (float32_bytes x)) with 4%nat in IH.
    rewrite (Nat.add_comm 4 (length prefix)).
    etransitivity; [exact IH|]. rewrite <- app_assoc. reflexivity.
Qed.

(** What the encoder returns, for every input: it never throws, and the
    buffer is the header followed by the samples. *)
Lemma createWavFromFloat32_bytes samples sampleRate numChannels :
  createWavFromFloat32 samples sampleRate numChannels
  = Some (mkBlob (wav_header (length samples) sampleRate numChannels
                    ++ (samples ≫= float32_bytes)) "audio/wav").
Proof.
  unfold createWavFromFloat32, ArrayBuffer, headerSize, bytesPerSample,
    bitsPerSample.
  change (32 / 8) with 4.
  replace (Z.to_nat (44 + Z.of_nat (length samples) * 4))
    with (44 + 4 * length samples)%nat by lia.
  rewrite replicate_add.
  change (Z.to_nat 44) with 44%nat.
  set (tail := replicate (4 * length samples) 0).
  set (n := Z.of_nat (length samples)).
  cbn -[byte_of ToUint32 ToUint16 ToUint8 Z.mul Z.add Z.sub tail n].
  match goal with
  | |- context [Float32Array_set ?l ?o samples] =>
      change (Float32Array_set l o samples)
        with (Float32Array_set
                (wav_header (length samples) sampleRate numChannels ++ tail)
                (length (wav_header (length samples) sampleRate numChannels))
                samples)
  end.
  unfold tail. rewrite Float32Array_set_app. reflexivity.
Qed.

Lemma ToUint16_small v : 0 ≤ v < 2 ^ 16 → ToUint16 v = v.
Proof. apply Z.mod_small. Qed.

Lemma ToUint32_small v : 0 ≤ v < 2 ^ 32 → ToUint32 v = v.
Proof. apply Z.mod_small. Qed.

Lemma ToUint16_range v : 0 ≤ ToUint16 v < 2 ^ 16.
Proof. apply Z.mod_pos_bound. lia. Qed.

Lemma ToUint32_range v : 0 ≤ ToUint32 v < 2 ^ 32.
Proof. apply Z.mod_pos_bound. lia. Qed.

(** Reading the header back gives every field modulo the width of its
    setter, whatever the inputs. *)
Lemma wav_header_fields n sampleRate numChannels (data : list Z) :
  let buffer := wav_header n sampleRate numChannels ++ data in
  length buffer = (44 + length data)%nat ∧
  bytes_at buffer 0 4 = char_codes "RIFF" ∧
  bytes_at buffer 8 4 = char_codes "WAVE" ∧
  bytes_at buffer 12 4 = char_codes "fmt " ∧
  bytes_at buffer 36 4 = char_codes "data" ∧
  getUint32 buffer 4 true = Some (ToUint32 (44 + Z.of_nat n * 4 - 8)) ∧
  getUint32 buffer 16 true = Some 16 ∧
  getUint16 buffer 20 true = Some 3 ∧
  getUint16 buffer 22 true = Some (ToUint16 numChannels) ∧
  getUint32 buffer 24 true = Some (ToUint32 sampleRate) ∧
  getUint32 buffer 28 true = Some (ToUint32 (sampleRate * numChannels * 4)) ∧
  getUint16 buffer 32 true = Some (ToUint16 (numChannels * 4)) ∧
  getUint16 buffer 34 true = Some 32 ∧
  getUint32 buffer 40 true = Some (ToUint32 (Z.of_nat n * 4)) ∧
  drop 44 buffer = data.
Proof.
  cbv zeta. unfold wav_header, u32_le, u16_le, getUint32, getUint16, bytes_at.
  cbn -[byte_of ToUint32 ToUint16 Z.mul Z.add Z.sub Z.pow].
  rewrite !u32_recompose by apply ToUint32_range.
  rewrite !u16_recompose by apply ToUint16_range.
  repeat split; reflexivity.
Qed.

Lemma float32_bytes_length (samples : list float32) :
  length (samples ≫= float32_bytes) = (4 * length samples)%nat.
Proof.
  induction samples as [|x rest IH]; [reflexivity|].
  change ((x :: rest) ≫= float32_bytes)
    with (float32_bytes x ++ (rest ≫= float32_bytes)).
  rewrite length_app, IH. simpl. lia.
Qed.

(** C1, as the encoder implements it: for every sample sequence S, sample
    rate R > 0 and channel count C > 0 that fit their header fields
    (4 C < 2^16, 4 R C < 2^32 and 36 + 4 |S| < 2^32), the encoder returns a
    buffer of exactly 44 + 4 |S| bytes with the four ASCII tags at 0, 8, 12
    and 36, the little-endian header fields equal to their formulas, and
    the samples as consecutive little-endian binary32 values from offset
    44 on. *)
Theorem wav_layout_within_field_widths samples sampleRate numChannels :
  0 < sampleRate → 0 < numChannels →
  numChannels * 4 < 2 ^ 16 →
  sampleRate * numChannels * 4 < 2 ^ 32 →
  36 + 4 * Z.of_nat (length samples) < 2 ^ 32 →
  ∃ blob,
    createWavFromFloat32 samples sampleRate numChannels = Some blob ∧
    blob_type blob = "audio/wav" ∧
    wav_layout samples sampleRate numChannels (blob_bytes blob).
Proof.
  intros HR HC HC16 HRC32 HS32.
  rewrite createWavFromFloat32_bytes. eexists. split; [reflexivity|].
  split; [reflexivity|]. cbn [blob_bytes].
  destruct (wav_header_fields (length samples) sampleRate numChannels
              (samples ≫= float32_bytes))
    as (Hlen & ? & ? & ? & ? & H4 & ? & ? & H22 & H24 & H28 & H32 & ? & H40 & ?).
  cbv zeta in *. rewrite float32_bytes_length in Hlen.
  rewrite ToUint32_small in H4 by lia.
  rewrite ToUint16_small in H22 by lia.
  rewrite ToUint32_small in H24 by nia.
  rewrite ToUint32_small in H28 by nia.
  rewrite ToUint16_small in H32 by lia.
  rewrite ToUint32_small in H40 by lia.
  unfold wav_layout. cbv zeta.
  replace (44 + 4 * Z.of_nat (length samples) - 8)
    with (44 + Z.of_nat (length samples) * 4 - 8) by lia.
  replace (4 * Z.of_nat (length samples))
    with (Z.of_nat (length samples) * 4) by lia.
  repeat split; try assumption. rewrite Hlen. lia.
Qed.


(** ** Running the service in an arbitrary world *)

(** Name the answer of the world to the next call. *)
Ltac answer_next handle :=
  match goal with
  | |- context [handle ?X ?e ?w] =>
      let x := fresh "x" in
      let w' := fresh "w" in
      destruct (handle X e w) as [x w']; cbn [fst snd]
  end.

(** Settle a membership in a trace that has been computed; a hypothesis
    that characterises the calls of a part left symbolic is used for that
    part. *)
Ltac in_trace :=
  repeat match goal with
         | H : In _ (_ :: _) |- _ => destruct H as [H | H]
         | H : In _ [] |- _ => destruct H
         | H : In _ (_ ++ _) |- _ => apply in_app_or in H
         | H : _ ∨ _ |- _ => destruct H as [H | H]
         | H : False |- _ => destruct H
         | H : In ?c ?t, Ht : ∀ c, In c ?t → _ |- _ =>
             apply Ht in H; destruct H as (? & ? & H)
         end;
  simplify_eq.

Section Session.
Context `{Platform} {W : Type}.
Variable handle : ∀ X, Event X → W → X * W.
Variable w : W.

(** *** Device acquisition *)

(** The result of [acquireDevice] in every world: it fails exactly when
    [deviceIds.at(0)] is falsy, that is when the list is empty or its
    first entry is the empty string. *)
Lemma acquireDevice_result deviceIds selectedDeviceId (w0 : W) :
  result (run handle (acquireDevice deviceIds selectedDeviceId) w0) =
  match deviceIds with
  | [] | EmptyString :: _ =>
      RecorderServiceErr
        (if truthy selectedDeviceId
         then "We couldn't find the selected microphone. Make sure it's connected and try again!"
         else "We couldn't find any microphones. Make sure they're connected and try again!")
        (ctx_devices selectedDeviceId deviceIds) cause_undefined
  | fallbackDeviceId :: _ =>
      if truthy selectedDeviceId
      then if includes deviceIds selectedDeviceId
           then Ok outcome_success
           else Ok (outcome_fallback preferred_device_unavailable
                      fallbackDeviceId)
      else Ok (outcome_fallback no_device_selected fallbackDeviceId)
  end.
Proof.
  unfold acquireDevice.
  destruct deviceIds as [|[|c first] rest]; [reflexivity | reflexivity |].
  cbn [lookup list_lookup truthy negb].
  destruct (truthy selectedDeviceId); cbn [negb]; [|reflexivity].
  destruct (includes _ _); reflexivity.
Qed.

Lemma includes_In deviceIds (selected : DeviceIdentifier) :
  includes deviceIds (Some selected) = true ↔ In selected deviceIds.
Proof.
  unfold includes. rewrite existsb_exists. split.
  - intros (d & Hd & Heq). apply String.eqb_eq in Heq. subst. exact Hd.
  - intros Hin. exists selected. split; [exact Hin | apply String.eqb_refl].
Qed.

Lemma truthy_Some (s : string) : truthy (Some s) = true ↔ s ≠ EmptyString.
Proof. destruct s; simpl; split; congruence. Qed.

Lemma truthy_false (s : option string) :
  truthy s = false ↔ s = None ∨ s = Some EmptyString.
Proof.
  destruct s as [[|c s]|]; simpl; split; intros Hs; auto; try discriminate.
  - destruct Hs as [Hs | Hs]; discriminate Hs.
Qed.

(** Acquisition fails exactly when the list is empty or its first entry
    is the empty string, whatever the preference. *)
Lemma acquireDevice_fails_iff deviceIds selectedDeviceId (w0 : W) :
  (∃ error,
     result (run handle (acquireDevice deviceIds selectedDeviceId) w0) =
       Err error)
  ↔ deviceIds = [] ∨ deviceIds !! 0%nat = Some EmptyString.
Proof.
  rewrite acquireDevice_result.
  destruct deviceIds as [|[|c first] rest]; cbn.
  - split; [auto | intros _; eexists; reflexivity].
  - split; [auto | intros _; eexists; reflexivity].
  - split.
    + intros [error Herr].
      destruct (truthy selectedDeviceId); [destruct (includes _ _)|];
        discriminate Herr.
    + intros [Hnil | Hempty]; discriminate.
Qed.

(** C2, at a list the claim covers and the code rejects: the first
    enumerated device has an empty name, the selected device is the
    second entry; acquisition fails with the no-device error although
    the list is not empty and contains the selected device. *)
Theorem acquireDevice_unnamed_first_device :
  result (run handle
            (acquireDevice [EmptyString; "USB Microphone"]
               (Some "USB Microphone")) w) =
  RecorderServiceErr
    "We couldn't find the selected microphone. Make sure it's connected and try again!"
    (ctx_devices (Some "USB Microphone") [EmptyString; "USB Microphone"])
    cause_undefined.
Proof. reflexivity. Qed.

(** Running past a first part of a program. *)
Lemma run_bind {A B} (m : Prog A) (f : A → Prog B) (w0 : W) :
  run handle (m ≫= f) w0 =
  let r1 := run handle m w0 in
  let r2 := run handle (f (result r1)) (world r1) in
  mkRun (result r2) (world r2) (trace r1 ++ trace r2).
Proof.
  revert w0. induction m as [a | X e k IH]; intros w0.
  - cbn. destruct (run handle (f a) w0); reflexivity.
  - change (run handle (Vis e k ≫= f) w0)
      with (let xw := handle _ e w0 in
            let r := run handle (k xw.1 ≫= f) xw.2 in
            mkRun (result r) (world r) (log e xw.1 :: trace r)).
    cbn zeta. rewrite IH. reflexivity.
Qed.

(** Status notifications are the only calls of [acquireDevice]. *)
Lemma acquireDevice_trace deviceIds selectedDeviceId (w0 : W) c :
  In c (trace (run handle (acquireDevice deviceIds selectedDeviceId) w0)) →
  ∃ title description, c = status_sent title description.
Proof.
  unfold acquireDevice.
  destruct deviceIds as [|[|ch first] rest]; cbn -[includes];
    [tauto | tauto |].
  destruct (truthy selectedDeviceId); cbn -[includes].
  - destruct (includes _ _); cbn; [tauto|].
    intros [<- | []]. eauto.
  - intros [<- | []]. eauto.
Qed.

Lemma map_asDeviceIdentifier deviceNames :
  map asDeviceIdentifier deviceNames = deviceNames.
Proof. apply map_id. Qed.

(** Symbolic execution of [startRecording], up to the answers of the
    world; the run of [acquireDevice] is kept as [acquired]. *)
Ltac run_startRecording handle :=
  unfold startRecording;
  destruct (negb _);
  [cbn | rewrite run_bind; cbn -[acquireDevice]; answer_next handle;
     match goal with x : _ + JsError |- _ => destruct x end;
     cbn -[acquireDevice];
     [ rewrite run_bind, map_asDeviceIdentifier; cbn zeta;
       match goal with
       | |- context [run handle (acquireDevice ?ids ?sel) ?w0] =>
           let Hacq := fresh "Hacq" in
           let acquired := fresh "acquired" in
           let Hacquired := fresh "Hacquired" in
           let Hres := fresh "Hres" in
           pose proof (acquireDevice_trace ids sel w0) as Hacq;
           remember (run handle (acquireDevice ids sel) w0)
             as acquired eqn:Hacquired;
           destruct (result acquired)
             as [deviceOutcome | acquireDeviceError] eqn:Hres;
           cbn;
           [ repeat answer_next handle;
             repeat match goal with
                    | x : _ + JsError |- _ => destruct x; cbn
                    end;
             repeat answer_next handle;
             repeat match goal with
                    | x : _ + JsError |- _ => destruct x; cbn
                    end
           | ]
       end
     | ] ].

(** *** startRecording *)

(** C10: with parameters that are not desktop parameters,
    [startRecording] returns its error at once: no device enumeration,
    no engine call, no status notification (the trace is empty and the
    world has not moved). *)
Theorem non_desktop_params_rejected params :
  platform params ≠ "desktop" →
  result (run handle (startRecording params) w) =
    RecorderServiceErr "Desktop recorder received non-desktop parameters"
      (ctx_params params) cause_undefined
  ∧ trace (run handle (startRecording params) w) = []
  ∧ world (run handle (startRecording params) w) = w.
Proof.
  intros Hplatform. unfold startRecording.
  destruct (String.eqb_spec (platform params) "desktop") as [Heq | _];
    [contradiction|].
  cbn. auto.
Qed.

(** C9, as the code implements it: whenever the
    [init_recording_session] call of a [startRecording] fails, the
    result is the session-setup error, whose context holds the selected
    device and the device the session was requested for, and nothing
    else (no recording id, folder or sample rate), and whose cause is
    the engine error; capture is never started, and no close is
    attempted. *)
Theorem init_failure_aborts_start params args initError :
  In (session_inited args (inr initError))
     (trace (run handle (startRecording params) w)) →
  result (run handle (startRecording params) w) =
    RecorderServiceErr
      "We encountered an issue while setting up your recording session. This could be because your microphone is being used by another app, your microphone permissions are denied, or the selected recording device is disconnected"
      (ctx_session (selectedDeviceId params) (arg_deviceIdentifier args))
      (cause_invoke (mkTauriInvokeError "init_recording_session" initError))
  ∧ (∀ r, ¬ In (capture_started r)
              (trace (run handle (startRecording params) w)))
  ∧ (∀ r, ¬ In (session_closed r)
              (trace (run handle (startRecording params) w))).
Proof.
  run_startRecording handle.
  all: intros Hin; in_trace.
  split; [reflexivity|].
  split; intros r Hr; in_trace.
Qed.

(** C3, as the code implements it: when the first enumerated device has
    a non-empty name and the preferred identifier is a non-empty string
    found anywhere in the list, acquisition returns Success, and a
    [startRecording] with that preference, once the enumeration has
    answered with that list, initialises a session, bound to the
    preferred identifier itself. *)
Theorem preferred_device_in_list_is_used params deviceIds first preferred :
  deviceIds !! 0%nat = Some first → first ≠ EmptyString →
  preferred ≠ EmptyString → In preferred deviceIds →
  selectedDeviceId params = Some preferred →
  result (run handle (acquireDevice deviceIds (Some preferred)) w) =
    Ok outcome_success
  ∧ (In (enumerated (inl deviceIds))
        (trace (run handle (startRecording params) w)) →
     (∃ args r, In (session_inited args r)
                  (trace (run handle (startRecording params) w)))
     ∧ ∀ args r, In (session_inited args r)
                   (trace (run handle (startRecording params) w)) →
                 arg_deviceIdentifier args = Some preferred).
Proof.
  intros Hfirst Hname Hpreferred Hmember Hselected.
  assert (Hok : ∀ w0, result (run handle
                   (acquireDevice deviceIds (Some preferred)) w0) =
                 Ok outcome_success).
  { intros w0. rewrite acquireDevice_result.
    apply truthy_Some in Hpreferred. apply includes_In in Hmember.
    destruct deviceIds as [|d rest]; [discriminate Hfirst|].
    cbn in Hfirst. injection Hfirst as ->.
    destruct first as [|c first]; [contradiction|].
    rewrite Hpreferred, Hmember. reflexivity. }
  split; [apply Hok|].
  revert Hok. rewrite <- Hselected. intros Hok.
  run_startRecording handle.
  all: intros Hin; in_trace.
  all: rewrite Hok in Hres; simplify_eq.
  all: split; [eexists _, _; right; apply in_or_app; right; cbn; eauto |].
  all: intros args r Hr; in_trace; reflexivity.
Qed.

(** C4, as the code implements it: when the first enumerated device has
    a non-empty name, acquisition falls back to that first device with
    reason NoDeviceSelected when the preference is absent or the empty
    string, and with reason PreferredUnavailable when the preference is a
    non-empty string that is not in the list; a fallback is returned in
    these two cases only, and always names the first device. *)
Theorem fallback_is_first_device deviceIds first selectedDeviceId :
  deviceIds !! 0%nat = Some first → first ≠ EmptyString →
  (selectedDeviceId = None ∨ selectedDeviceId = Some EmptyString →
   result (run handle (acquireDevice deviceIds selectedDeviceId) w) =
     Ok (outcome_fallback no_device_selected first))
  ∧ (∀ preferred,
       selectedDeviceId = Some preferred → preferred ≠ EmptyString →
       ¬ In preferred deviceIds →
       result (run handle (acquireDevice deviceIds selectedDeviceId) w) =
         Ok (outcome_fallback preferred_device_unavailable first))
  ∧ (∀ reason fallbackDeviceId,
       result (run handle (acquireDevice deviceIds selectedDeviceId) w) =
         Ok (outcome_fallback reason fallbackDeviceId) →
       fallbackDeviceId = first
       ∧ (reason = no_device_selected
          ∧ (selectedDeviceId = None ∨ selectedDeviceId = Some EmptyString)
          ∨ reason = preferred_device_unavailable
            ∧ ∃ preferred,
                selectedDeviceId = Some preferred
                ∧ preferred ≠ EmptyString ∧ ¬ In preferred deviceIds)).
Proof.
  intros Hfirst Hname. rewrite acquireDevice_result.
  destruct deviceIds as [|d rest]; [discriminate Hfirst|].
  cbn in Hfirst. injection Hfirst as ->.
  destruct first as [|c first]; [contradiction|].
  split; [|split].
  - intros Hnone. apply truthy_false in Hnone. rewrite Hnone. reflexivity.
  - intros preferred -> Hpreferred Hmissing.
    apply truthy_Some in Hpreferred. rewrite Hpreferred.
    destruct (includes _ _) eqn:Hin; [|reflexivity].
    apply includes_In in Hin. contradiction.
  - intros reason fallbackDeviceId.
    destruct (truthy selectedDeviceId) eqn:Hsel.
    + destruct (includes _ _) eqn:Hin; intros Heq; simplify_eq.
      split; [reflexivity|]. right. split; [reflexivity|].
      destruct selectedDeviceId as [preferred|]; [|discriminate Hsel].
      exists preferred. split; [reflexivity|].
      split; [apply truthy_Some, Hsel|].
      intros Hmember. apply includes_In in Hmember. congruence.
    + intros Heq. simplify_eq. split; [reflexivity|]. left.
      split; [reflexivity | apply truthy_false, Hsel].
Qed.

(** *** stopRecording *)

Ltac run_service handle :=
  cbn -[createWavFromFloat32];
  repeat (first [ answer_next handle
                | match goal with
                  | x : _ + JsError |- _ => destruct x
                  end ];
          cbn -[createWavFromFloat32]).

Ltac run_stopRecording handle :=
  unfold stopRecording, close_after_stop;
  cbn -[createWavFromFloat32 truthy]; answer_next handle;
  match goal with
  | x : AudioRecording + JsError |- _ =>
      let audio := fresh "audio" in
      let Hpath := fresh "Hpath" in
      destruct x as [audio | ?];
      [ destruct (truthy (filePath audio)) eqn:Hpath;
        [ | rewrite createWavFromFloat32_bytes ]
      | ]
  end;
  run_service handle.

(** C5, as the code implements it: on a stop whose engine result
    carries a non-empty file path, the file is read and the returned
    bytes are the bytes read, as they are; when the file path is absent
    or the empty string, no file is read and the returned bytes are the
    WAV encoder applied to the raw samples (as a [Float32Array]), the
    sample rate and the channel count of the result. *)
Theorem stop_audio_has_one_source audioRecording :
  In (capture_stopped (inl audioRecording))
     (trace (run handle stopRecording w)) →
  (∀ path,
     filePath audioRecording = Some path → path ≠ EmptyString →
     (∃ answer, In (file_read path answer)
                  (trace (run handle stopRecording w)))
     ∧ ∀ fileBytes,
         In (file_read path (inl fileBytes))
            (trace (run handle stopRecording w)) →
         result (run handle stopRecording w) =
           Some (Ok (mkBlob fileBytes "audio/wav")))
  ∧ (filePath audioRecording = None
     ∨ filePath audioRecording = Some EmptyString →
     (∀ path answer, ¬ In (file_read path answer)
                         (trace (run handle stopRecording w)))
     ∧ ∃ blob,
         createWavFromFloat32 (Float32Array_from (audioData audioRecording))
           (rec_sampleRate audioRecording) (channels audioRecording)
         = Some blob
         ∧ result (run handle stopRecording w) = Some (Ok blob)).
Proof.
  run_stopRecording handle.
  all: intros Hin; in_trace.
  all: split;
    [ intros path Hp Hne; rewrite Hp in *; cbn [default] in *;
      first
        [ apply truthy_Some in Hne; congruence
        | split;
          [ eexists; do 2 right; left; reflexivity
          | intros fileBytes Hr; in_trace; reflexivity ] ]
    | intros Hnone; apply truthy_false in Hnone;
      first
        [ congruence
        | split;
          [ intros path answer Hr; in_trace
          | eexists; split;
            [apply createWavFromFloat32_bytes | reflexivity] ] ] ].
Qed.

(** [stopRecording] always returns: the encoder is total, so no
    exception escapes. *)
Lemma stopRecording_returns :
  result (run handle stopRecording w) ≠ None.
Proof. run_stopRecording handle; discriminate. Qed.

(** C6: on a [stopRecording] whose engine stop succeeded and whose file
    read, if there was one, did not fail, a failing close call leaves
    the result as it is: the audio that was produced (the bytes read, or
    the encoded samples) is returned, and the close failure is logged
    through [console.error]. *)
Theorem close_failure_keeps_audio audioRecording closeError :
  In (capture_stopped (inl audioRecording))
     (trace (run handle stopRecording w)) →
  (∀ path error, ¬ In (file_read path (inr error))
                     (trace (run handle stopRecording w))) →
  In (session_closed (inr closeError))
     (trace (run handle stopRecording w)) →
  ∃ blob,
    result (run handle stopRecording w) = Some (Ok blob)
    ∧ In (error_logged "Failed to close recording session:"
            (cause_invoke
               (mkTauriInvokeError "close_recording_session" closeError)))
         (trace (run handle stopRecording w))
    ∧ ((∃ path fileBytes,
          filePath audioRecording = Some path
          ∧ In (file_read path (inl fileBytes))
               (trace (run handle stopRecording w))
          ∧ blob = mkBlob fileBytes "audio/wav")
       ∨ ((∀ path answer, ¬ In (file_read path answer)
                              (trace (run handle stopRecording w)))
          ∧ createWavFromFloat32
              (Float32Array_from (audioData audioRecording))
              (rec_sampleRate audioRecording) (channels audioRecording)
            = Some blob)).
Proof.
  run_stopRecording handle.
  all: intros Hstop Hread Hclose; in_trace.
  - eexists. split; [reflexivity|]. split; [tauto|]. left.
    destruct (filePath audioRecording) as [path|] eqn:Hp;
      [|discriminate Hpath].
    exists path. eexists. split; [reflexivity|]. cbn. split; [tauto|].
    reflexivity.
  - eexists. split; [reflexivity|]. split; [tauto|]. right.
    split; [intros path answer Hr; in_trace|].
    apply createWavFromFloat32_bytes.
Qed.

(** *** cancelRecording *)

Ltac run_cancelRecording handle :=
  unfold cancelRecording;
  cbn -[truthy]; answer_next handle;
  match goal with
  | x : option string + JsError |- _ =>
      let id := fresh "id" in
      let Hid := fresh "Hid" in
      destruct x as [id | ?];
      [ destruct (truthy id) eqn:Hid;
        [ cbn -[truthy]; repeat answer_next handle;
          match goal with
          | x : AudioRecording + JsError |- _ =>
              let audio := fresh "audio" in
              let Hpath := fresh "Hpath" in
              destruct x as [audio | ?];
              [ cbn -[truthy];
                destruct (truthy (filePath audio)) eqn:Hpath | ]
          end
        | ]
      | ]
  end;
  run_service handle.

(** C7: when the engine reports no current recording id,
    [cancelRecording] returns the no-recording status and the id query
    is the only call it has made: no stop, no delete, no close, no
    notification. *)
Theorem cancel_without_recording :
  In (got_recording_id (inl None))
     (trace (run handle cancelRecording w)) →
  result (run handle cancelRecording w) = Ok status_no_recording
  ∧ trace (run handle cancelRecording w) = [got_recording_id (inl None)]
  ∧ (∀ r, ¬ In (capture_stopped r) (trace (run handle cancelRecording w)))
  ∧ (∀ path r, ¬ In (file_removed path r)
                 (trace (run handle cancelRecording w)))
  ∧ (∀ r, ¬ In (session_closed r) (trace (run handle cancelRecording w))).
Proof.
  run_cancelRecording handle.
  all: intros Hin; in_trace; try discriminate.
  repeat (split; [reflexivity|]).
  split; [|split]; intros; intros Hr; in_trace.
Qed.

(** C8, as the code implements it: a [cancelRecording] returns an error
    only when the initial id query failed; when the query reports a
    non-empty recording id the result is the cancelled status whatever
    the stop, the delete and the close calls answer; a failed delete
    and a failed close are logged through [console.error], a failed
    stop is dropped without being logged; the session is always closed.
    (The result type holds a status only, no audio.) *)
Theorem cancel_only_fails_on_id_query :
  (∀ error,
     result (run handle cancelRecording w) = Err error →
     ∃ e, In (got_recording_id (inr e))
            (trace (run handle cancelRecording w)))
  ∧ ∀ recordingId,
      In (got_recording_id (inl (Some recordingId)))
         (trace (run handle cancelRecording w)) →
      recordingId ≠ EmptyString →
      result (run handle cancelRecording w) = Ok status_cancelled
      ∧ (∀ path error,
           In (file_removed path (inr error))
              (trace (run handle cancelRecording w)) →
           In (error_logged "Failed to delete recording file:"
                 (cause_thrown error))
              (trace (run handle cancelRecording w)))
      ∧ (∀ error,
           In (session_closed (inr error))
              (trace (run handle cancelRecording w)) →
           In (error_logged "Failed to close recording session:"
                 (cause_invoke
                    (mkTauriInvokeError "close_recording_session" error)))
              (trace (run handle cancelRecording w)))
      ∧ (∀ error,
           In (capture_stopped (inr error))
              (trace (run handle cancelRecording w)) →
           ∀ label value,
             In (error_logged label value)
                (trace (run handle cancelRecording w)) →
             label = "Failed to close recording session:")
      ∧ ∃ r, In (session_closed r) (trace (run handle cancelRecording w)).
Proof.
  run_cancelRecording handle.
  all: split; [intros error Herr; simplify_eq; eexists; left; reflexivity|].
  all: intros recordingId Hin Hname; in_trace.
  all: try (apply truthy_Some in Hname; congruence).
  all: split; [reflexivity|].
  all: split; [intros path error Hr; in_trace; tauto|].
  all: split; [intros error Hr; in_trace; tauto|].
  all: split; [intros error Hr label value Hl; in_trace; reflexivity|].
  all: eexists; cbn; eauto 10.
Qed.

(** *** Further properties of the session operations *)

Lemma wav_header_length n sampleRate numChannels :
  length (wav_header n sampleRate numChannels) = 44%nat.
Proof. reflexivity. Qed.


Lemma engine_calls_app (t1 t2 : list Call) :
  engine_calls (t1 ++ t2) = engine_calls t1 ++ engine_calls t2.
Proof. apply List.filter_app. Qed.

Lemma engine_calls_notifications (t : list Call) :
  (∀ c, In c t → ∃ title description, c = status_sent title description) →
  engine_calls t = [].
Proof.
  induction t as [|c t IH]; intros Hall; [reflexivity|].
  destruct (Hall c) as (title & description & ->); [left; reflexivity|].
  cbn. apply IH. intros c' Hc'. apply Hall. right. exact Hc'.
Qed.

(** X7. [acquireDevice] fails exactly when the enumerated list is empty
    or its first entry is the empty string, whatever device is selected:
    a selected device that is in the list does not help when the first
    entry is unusable, and a non-empty first entry is always enough. *)
Theorem acquireDevice_fails_without_first_device deviceIds selectedDeviceId :
  (∃ error,
     result (run handle (acquireDevice deviceIds selectedDeviceId) w)
     = Err error)
  ↔ deviceIds = [] ∨ deviceIds !! 0%nat = Some EmptyString.
Proof. apply acquireDevice_fails_iff. Qed.

(** X8. [acquireDevice] notifies the user exactly when it falls back: one
    status, naming the reason; it sends nothing when the preferred device
    is found and nothing when it fails. *)
Theorem acquireDevice_notifies_on_fallback_only deviceIds selectedDeviceId :
  match result (run handle (acquireDevice deviceIds selectedDeviceId) w) with
  | Ok (outcome_fallback no_device_selected _) =>
      trace (run handle (acquireDevice deviceIds selectedDeviceId) w) =
      [status_sent "🔍 No Device Selected"
         "No worries! We'll find the best microphone for you automatically..."]
  | Ok (outcome_fallback preferred_device_unavailable _) =>
      trace (run handle (acquireDevice deviceIds selectedDeviceId) w) =
      [status_sent "⚠️ Finding a New Microphone"
         "That microphone isn't available. Let's try finding another one..."]
  | Ok outcome_success | Err _ =>
      trace (run handle (acquireDevice deviceIds selectedDeviceId) w) = []
  end.
Proof.
  unfold acquireDevice.
  destruct deviceIds as [|[|c first] rest]; [reflexivity | reflexivity |].
  cbn -[includes truthy].
  destruct (truthy selectedDeviceId); cbn -[includes]; [|reflexivity].
  destruct (includes _ _); reflexivity.
Qed.

Lemma acquired_device_is_enumerated deviceIds selectedDeviceId (w0 : W)
    deviceOutcome :
  result (run handle (acquireDevice deviceIds selectedDeviceId) w0)
    = Ok deviceOutcome →
  ∃ device,
    effective_device selectedDeviceId deviceOutcome = Some device
    ∧ In device deviceIds ∧ device ≠ EmptyString.
Proof.
  rewrite acquireDevice_result.
  destruct deviceIds as [|[|c first] rest]; [discriminate .. |].
  destruct (truthy selectedDeviceId) eqn:Hsel.
  - destruct (includes _ _) eqn:Hin; intros [= <-]; cbn [effective_device].
    + destruct selectedDeviceId as [selected|]; [|discriminate Hsel].
      exists selected. split; [reflexivity|].
      split; [apply includes_In, Hin | apply truthy_Some, Hsel].
    + eexists. split; [reflexivity|]. split; [left; reflexivity | discriminate].
  - intros [= <-]. cbn [effective_device].
    eexists. split; [reflexivity|]. split; [left; reflexivity | discriminate].
Qed.

(** X9. The session is always bound to an enumerated device: whenever
    [startRecording] initialises a session, after the enumeration
    answered with a list, the device of the session is a non-empty
    entry of that list (the selected one or the first one). *)
Theorem session_device_is_enumerated params deviceIds args r :
  In (enumerated (inl deviceIds))
     (trace (run handle (startRecording params) w)) →
  In (session_inited args r)
     (trace (run handle (startRecording params) w)) →
  ∃ device,
    arg_deviceIdentifier args = Some device
    ∧ In device deviceIds ∧ device ≠ EmptyString.
Proof.
  run_startRecording handle.
  all: intros Henum Hinit; in_trace.
  all: eapply acquired_device_is_enumerated; exact Hres.
Qed.

(** X10. Without a usable first device (the enumeration answered with
    the empty list, or with a list whose first entry is the empty
    string), [startRecording] returns the no-device error, whose message
    depends on whether a device was selected, and does nothing else: no
    notification, no session initialised, no capture started. *)
Theorem no_usable_device_aborts_start params deviceIds :
  In (enumerated (inl deviceIds))
     (trace (run handle (startRecording params) w)) →
  deviceIds = [] ∨ deviceIds !! 0%nat = Some EmptyString →
  result (run handle (startRecording params) w) =
    RecorderServiceErr
      (if truthy (selectedDeviceId params)
       then "We couldn't find the selected microphone. Make sure it's connected and try again!"
       else "We couldn't find any microphones. Make sure they're connected and try again!")
      (ctx_devices (selectedDeviceId params) deviceIds) cause_undefined
  ∧ trace (run handle (startRecording params) w)
    = [enumerated (inl deviceIds)].
Proof.
  intros Henum Hnone. revert Henum.
  assert (Hfail : ∀ w0,
            run handle (acquireDevice deviceIds (selectedDeviceId params)) w0
            = mkRun (RecorderServiceErr
                       (if truthy (selectedDeviceId params)
                        then "We couldn't find the selected microphone. Make sure it's connected and try again!"
                        else "We couldn't find any microphones. Make sure they're connected and try again!")
                       (ctx_devices (selectedDeviceId params) deviceIds)
                       cause_undefined) w0 []).
  { intros w0. unfold acquireDevice.
    destruct Hnone as [-> | Hempty]; [reflexivity|].
    destruct deviceIds as [|[|c first] rest];
      [reflexivity | reflexivity | discriminate Hempty]. }
  clear Hnone. run_startRecording handle.
  all: intros Henum; in_trace.
  all: rewrite Hfail in Hres; unfold RecorderServiceErr in Hres;
    cbn in Hres; simplify_eq.
  rewrite Hfail. cbn. split; reflexivity.
Qed.

(** X11. When the [start_recording] call fails, [startRecording] returns
    the capture error, whose context holds the device of the session
    and the outcome [acquireDevice] returned for the enumerated list
    and the selected device; the session it has just initialised is
    left open: no [close_recording_session] call is made. *)
Theorem capture_failure_leaves_session_open params deviceIds startError :
  In (enumerated (inl deviceIds))
     (trace (run handle (startRecording params) w)) →
  In (capture_started (inr startError))
     (trace (run handle (startRecording params) w)) →
  (∃ args deviceOutcome,
     (∀ w0, result (run handle
                      (acquireDevice deviceIds (selectedDeviceId params)) w0)
            = Ok deviceOutcome)
     ∧ In (session_inited args (inl tt))
          (trace (run handle (startRecording params) w))
     ∧ arg_deviceIdentifier args
       = effective_device (selectedDeviceId params) deviceOutcome
     ∧ result (run handle (startRecording params) w) =
         RecorderServiceErr
           "Unable to start recording. Please check your microphone and try again."
           (ctx_capture (arg_deviceIdentifier args) deviceOutcome)
           (cause_invoke (mkTauriInvokeError "start_recording" startError)))
  ∧ ∀ r, ¬ In (session_closed r)
             (trace (run handle (startRecording params) w)).
Proof.
  run_startRecording handle.
  all: intros Henum Hstart; in_trace.
  split; [|intros r Hr; in_trace].
  eexists _, deviceOutcome. destruct u.
  split.
  { intros w3. rewrite acquireDevice_result.
    rewrite acquireDevice_result in Hres. exact Hres. }
  split; [right; apply in_or_app; right; right; left; reflexivity|].
  split; reflexivity.
Qed.

(** X12. The calls [startRecording] makes to the engine, and its result,
    have one of six shapes: nothing (parameters of another platform);
    a failed enumeration; an enumeration without a usable first device;
    enumeration and a failed init; enumeration, init and a failed start;
    enumeration, init and start, the only shape with an [Ok] result.
    Each command is invoked at most once, init only after a successful
    enumeration, start only after a successful init. *)
Theorem startRecording_protocol params :
  match engine_calls (trace (run handle (startRecording params) w)),
        result (run handle (startRecording params) w) with
  | [], Err _ => platform params ≠ "desktop"
  | [enumerated (inr _)], Err _ => True
  | [enumerated (inl deviceIds)], Err _ =>
      deviceIds = [] ∨ deviceIds !! 0%nat = Some EmptyString
  | [enumerated (inl _); session_inited _ (inr _)], Err _ => True
  | [enumerated (inl _); session_inited _ (inl _); capture_started (inr _)],
    Err _ => True
  | [enumerated (inl _); session_inited _ (inl _); capture_started (inl _)],
    Ok _ => True
  | _, _ => False
  end.
Proof.
  unfold startRecording, engine_calls.
  destruct (String.eqb_spec (platform params) "desktop") as [Hp | Hp];
    [|cbn; exact Hp].
  cbn [negb]. rewrite run_bind. cbn -[acquireDevice]. answer_next handle.
  destruct x as [deviceNames | e]; cbn -[acquireDevice]; [|exact I].
  rewrite run_bind, map_asDeviceIdentifier. cbn zeta.
  pose proof (acquireDevice_trace deviceNames (selectedDeviceId params) w0)
    as Hacq.
  pose proof (acquireDevice_fails_iff deviceNames (selectedDeviceId params) w0)
    as Hfail.
  apply engine_calls_notifications in Hacq. unfold engine_calls in Hacq.
  destruct (run handle (acquireDevice deviceNames (selectedDeviceId params))
              w0) as [[deviceOutcome | error] w1 t1].
  all: cbn [result world trace] in *; cbn -[List.filter].
  - repeat (first [ answer_next handle
                  | match goal with
                    | x : _ + JsError |- _ => destruct x
                    end ];
            cbn -[List.filter]).
    all: rewrite List.filter_app, Hacq; cbn; exact I.
  - rewrite List.filter_app, Hacq. cbn.
    apply Hfail. eexists. reflexivity.
Qed.

(** X13. What the engine is asked to initialise: the session carries the
    recording id of the parameters; an output folder or a sample rate
    that is absent or the empty string is sent as [undefined], never as
    an empty string; a non-empty output folder is sent as it is and a
    non-empty sample rate as [Number.parseInt(sampleRate, 10)]. *)
Theorem init_arguments_normalised params args r :
  In (session_inited args r)
     (trace (run handle (startRecording params) w)) →
  arg_recordingId args = recordingId params
  ∧ arg_outputFolder args ≠ Some EmptyString
  ∧ (∀ folder, outputFolder params = Some folder → folder ≠ EmptyString →
       arg_outputFolder args = Some folder)
  ∧ (outputFolder params = None ∨ outputFolder params = Some EmptyString →
       arg_outputFolder args = None)
  ∧ (∀ rate, sampleRate params = Some rate → rate ≠ EmptyString →
       arg_sampleRate args = Some (Number_parseInt rate 10))
  ∧ (sampleRate params = None ∨ sampleRate params = Some EmptyString →
       arg_sampleRate args = None).
Proof.
  run_startRecording handle.
  all: intros Hinit; in_trace.
  all: cbn [arg_recordingId arg_outputFolder arg_sampleRate].
  all: split; [reflexivity|].
  all: split;
    [destruct (outputFolder params) as [[|c f]|]; cbn; discriminate|].
  all: split;
    [intros folder -> Hne; apply truthy_Some in Hne; rewrite Hne;
     reflexivity|].
  all: split;
    [intros Hnone; apply truthy_false in Hnone; rewrite Hnone; reflexivity|].
  all: split;
    [intros rate -> Hne; apply truthy_Some in Hne; rewrite Hne; reflexivity|].
  all: intros Hnone; apply truthy_false in Hnone; rewrite Hnone; reflexivity.
Qed.

(** X14. When reading the recording file fails, [stopRecording] returns
    the read error, naming the path the engine reported, and the session
    is left open: no [close_recording_session] call is made. *)
Theorem read_failure_leaves_session_open path readError :
  In (file_read path (inr readError))
     (trace (run handle stopRecording w)) →
  result (run handle stopRecording w) =
    Some (RecorderServiceErr
            "Unable to read recording file. Please try again."
            (ctx_file "readRecordingFile" path) (cause_thrown readError))
  ∧ (∃ audioRecording,
       In (capture_stopped (inl audioRecording))
          (trace (run handle stopRecording w))
       ∧ filePath audioRecording = Some path)
  ∧ ∀ r, ¬ In (session_closed r) (trace (run handle stopRecording w)).
Proof.
  run_stopRecording handle.
  all: intros Hread; in_trace.
  split; [reflexivity|]. split; [|intros r Hr; in_trace].
  exists audio. split; [left; reflexivity|].
  destruct (filePath audio) as [p|]; [reflexivity | discriminate Hpath].
Qed.

(** X15. The calls [stopRecording] makes to the engine and the file
    system, and its result, have one of four shapes: a failed stop; a
    stop and a failed read of the reported path; a stop, a read and a
    close, returning the bytes read; a stop and a close, returning the
    encoded samples. The session is closed exactly when audio is
    returned, a file is read only when the stop result has a non-empty
    path, and nothing is ever deleted. *)
Theorem stopRecording_protocol :
  match engine_calls (trace (run handle stopRecording w)),
        result (run handle stopRecording w) with
  | [capture_stopped (inr _)], Some (Err _) => True
  | [capture_stopped (inl audioRecording); file_read path (inr _)],
    Some (Err _) =>
      filePath audioRecording = Some path ∧ path ≠ EmptyString
  | [capture_stopped (inl audioRecording); file_read path (inl fileBytes);
     session_closed _], Some (Ok blob) =>
      filePath audioRecording = Some path ∧ path ≠ EmptyString
      ∧ blob = mkBlob fileBytes "audio/wav"
  | [capture_stopped (inl audioRecording); session_closed _],
    Some (Ok blob) =>
      (filePath audioRecording = None
       ∨ filePath audioRecording = Some EmptyString)
      ∧ createWavFromFloat32 (Float32Array_from (audioData audioRecording))
          (rec_sampleRate audioRecording) (channels audioRecording)
        = Some blob
  | _, _ => False
  end.
Proof.
  run_stopRecording handle.
  all: try exact I.
  all: destruct (filePath audio) as [[|c p]|]; try discriminate Hpath.
  all: cbn [default]; repeat split; try first [reflexivity | discriminate].
  all: auto.
Qed.

(** X16. Every blob [stopRecording] returns has type [audio/wav]; when
    the stop result has no usable file path, the blob holds
    44 + 4 n bytes for the n samples the engine returned. *)
Theorem stop_blob_is_wav blob :
  result (run handle stopRecording w) = Some (Ok blob) →
  blob_type blob = "audio/wav"
  ∧ ∀ audioRecording,
      In (capture_stopped (inl audioRecording))
         (trace (run handle stopRecording w)) →
      filePath audioRecording = None
      ∨ filePath audioRecording = Some EmptyString →
      length (blob_bytes blob)
      = (44 + 4 * length (audioData audioRecording))%nat.
Proof.
  run_stopRecording handle.
  all: intros Hresult; simplify_eq.
  all: split; [reflexivity|].
  all: intros audioRecording Hstop Hnone; apply truthy_false in Hnone;
    in_trace; try congruence.
  all: cbn [blob_bytes length].
  all: rewrite float32_bytes_length; unfold Float32Array_from;
    rewrite length_map; lia.
Qed.

(** X17. An id that is the empty string counts as no recording:
    [cancelRecording] returns the no-recording status and makes no other
    call, as for an absent id. *)
Theorem cancel_with_empty_id :
  In (got_recording_id (inl (Some EmptyString)))
     (trace (run handle cancelRecording w)) →
  result (run handle cancelRecording w) = Ok status_no_recording
  ∧ trace (run handle cancelRecording w)
    = [got_recording_id (inl (Some EmptyString))].
Proof.
  run_cancelRecording handle.
  all: intros Hin; in_trace; try discriminate.
  split; reflexivity.
Qed.

(** X18. The calls [cancelRecording] makes to the engine and the file
    system, and its result, have one of four shapes: a failed id query;
    an id query answering no id (or the empty string), with the
    no-recording status; id query, stop and close; id query, stop,
    delete of the path the stop reported, and close — both with the
    cancelled status. The file is deleted between the stop and the
    close, only when the stop succeeded with a non-empty path, and no
    file is ever read. *)
Theorem cancelRecording_protocol :
  match engine_calls (trace (run handle cancelRecording w)),
        result (run handle cancelRecording w) with
  | [got_recording_id (inr _)], Err _ => True
  | [got_recording_id (inl id)], Ok status_no_recording =>
      id = None ∨ id = Some EmptyString
  | [got_recording_id (inl (Some id)); capture_stopped stopped;
     session_closed _], Ok status_cancelled =>
      id ≠ EmptyString
      ∧ match stopped with
        | inl audioRecording =>
            filePath audioRecording = None
            ∨ filePath audioRecording = Some EmptyString
        | inr _ => True
        end
  | [got_recording_id (inl (Some id)); capture_stopped (inl audioRecording);
     file_removed path _; session_closed _], Ok status_cancelled =>
      id ≠ EmptyString
      ∧ filePath audioRecording = Some path ∧ path ≠ EmptyString
  | _, _ => False
  end.
Proof.
  run_cancelRecording handle.
  all: try exact I.
  all: destruct id as [[|c id]|]; try discriminate Hid; auto.
  all: split; [discriminate|]; try exact I.
  all: destruct (filePath audio) as [[|c' p]|]; try discriminate Hpath.
  all: cbn [default]; repeat split; try first [reflexivity | discriminate].
  all: auto.
Qed.

(** X29. A failed enumeration ends [startRecording]: it returns the
    error of [enumerateRecordingDeviceIds] as it is (the message
    "Failed to enumerate recording devices", the failure of the
    [enumerate_recording_devices] command as cause), sends no
    notification and makes no other call. *)
Theorem enumeration_failure_aborts_start params enumerateError :
  In (enumerated (inr enumerateError))
     (trace (run handle (startRecording params) w)) →
  ∃ error,
    result (run handle enumerateRecordingDeviceIds w) = Err error
    ∧ result (run handle (startRecording params) w) = Err error
    ∧ message error = "Failed to enumerate recording devices"
    ∧ cause error
      = cause_invoke
          (mkTauriInvokeError "enumerate_recording_devices" enumerateError)
    ∧ trace (run handle (startRecording params) w)
      = [enumerated (inr enumerateError)].
Proof.
  unfold enumerateRecordingDeviceIds.
  run_startRecording handle.
  all: intros Henum; in_trace.
  eexists. repeat split.
Qed.

(** X30. [cancelRecording] and [getCurrentRecordingId] ask the engine
    the same question: in the same world, the cancel fails exactly when
    the id query fails, with the same cause; it reports no recording
    exactly when the id is absent or the empty string, and cancels
    exactly when the id is a non-empty string. *)
Theorem cancel_agrees_with_current_id :
  match result (run handle getCurrentRecordingId w),
        result (run handle cancelRecording w) with
  | Err queryError, Err cancelError =>
      cause cancelError = cause queryError
      ∧ context cancelError = ctx_operation "cancelRecording"
  | Ok None, Ok status_no_recording => True
  | Ok (Some id), Ok status_no_recording => id = EmptyString
  | Ok (Some id), Ok status_cancelled => id ≠ EmptyString
  | _, _ => False
  end.
Proof.
  unfold getCurrentRecordingId.
  run_cancelRecording handle.
  all: try match goal with
           | Hid : truthy ?recordingId = _ |- _ =>
               is_var recordingId;
               destruct recordingId as [[|c rest]|]; try discriminate Hid
           end.
  all: first [exact I | reflexivity | discriminate | split; reflexivity].
Qed.
End Session.

(** ** Concrete runs *)

(** The header fields wrap: with 65536 channels the u16 at offset 22 reads
    0, so the layout of C1 does not hold for every positive channel
    count. *)
Lemma wav_channel_count_wraps :
  0 < 1 ∧ 0 < 65536 ∧
  ∃ blob,
    createWavFromFloat32 [] 1 65536 = Some blob
    ∧ getUint16 (blob_bytes blob) 22 true = Some 0
    ∧ ¬ wav_layout [] 1 65536 (blob_bytes blob).
Proof.
  split; [lia|]. split; [lia|].
  eexists. split; [reflexivity|]. split; [reflexivity|].
  intros (_ & _ & _ & _ & _ & _ & _ & _ & H22 & _).
  vm_compute in H22. discriminate H22.
Qed.

Lemma wav_layout_within_field_widths_witness :
  ∃ blob,
    createWavFromFloat32 [1065353216; 3212836864] 44100 2 = Some blob ∧
    blob_type blob = "audio/wav" ∧
    wav_layout [1065353216; 3212836864] 44100 2 (blob_bytes blob).
Proof.
  apply (wav_layout_within_field_widths [1065353216; 3212836864] 44100 2);
    simpl; lia.
Defined.

(** C3 as stated fails: the empty string is an entry of the list, it is
    the preferred identifier, and acquisition falls back to the first
    device instead of returning Success. *)
Lemma preferred_empty_string_falls_back :
  let deviceIds := ["Built-in Microphone"; EmptyString] in
  let world := scripted (studio (inl None) (inl tt) (inl recording_in_file)
                           (inl tt) (inl tt)) in
  deviceIds ≠ [] ∧ In EmptyString deviceIds ∧
  result (run world (acquireDevice deviceIds (Some EmptyString)) tt)
    = Ok (outcome_fallback no_device_selected "Built-in Microphone") ∧
  result (run world (acquireDevice deviceIds (Some EmptyString)) tt)
    ≠ Ok outcome_success.
Proof.
  cbv zeta. split; [discriminate|]. split; [simpl; tauto|].
  split; [reflexivity | discriminate].
Qed.

Lemma preferred_device_in_list_is_used_witness :
  let world := scripted (studio (inl None) (inl tt) (inl recording_in_file)
                           (inl tt) (inl tt)) in
  let params := desktop_params (Some "USB Microphone") in
  In "USB Microphone" two_devices ∧
  result (run world (acquireDevice two_devices (Some "USB Microphone")) tt)
    = Ok outcome_success ∧
  ∀ args r, In (session_inited args r) (trace (run world (startRecording params) tt)) →
            arg_deviceIdentifier args = Some "USB Microphone".
Proof.
  cbv zeta.
  pose proof (preferred_device_in_list_is_used (H := binary32_numbers)
                (scripted (studio (inl None) (inl tt) (inl recording_in_file)
                             (inl tt) (inl tt))) tt
                (desktop_params (Some "USB Microphone")) two_devices
                "Built-in Microphone" "USB Microphone") as Hused.
  destruct Hused as [Hsuccess Hsession];
    [reflexivity | discriminate | discriminate | simpl; tauto
    | reflexivity |].
  split; [simpl; tauto|]. split; [exact Hsuccess|].
  apply Hsession. simpl. tauto.
Defined.

(** C4 as stated fails: the empty string is given as the preference, it
    is not in the list, and the reason of the fallback is NoDeviceSelected,
    not PreferredUnavailable. *)
Lemma preferred_empty_string_counts_as_none :
  let deviceIds := ["Built-in Microphone"] in
  let world := scripted (studio (inl None) (inl tt) (inl recording_in_file)
                           (inl tt) (inl tt)) in
  deviceIds ≠ [] ∧ ¬ In EmptyString deviceIds ∧
  result (run world (acquireDevice deviceIds (Some EmptyString)) tt)
    = Ok (outcome_fallback no_device_selected "Built-in Microphone") ∧
  result (run world (acquireDevice deviceIds (Some EmptyString)) tt)
    ≠ Ok (outcome_fallback preferred_device_unavailable
            "Built-in Microphone").
Proof.
  cbv zeta. split; [discriminate|].
  split; [simpl; intros [Heq | []]; discriminate Heq|].
  split; [reflexivity | discriminate].
Qed.

Lemma fallback_is_first_device_witness :
  let world := scripted (studio (inl None) (inl tt) (inl recording_in_file)
                           (inl tt) (inl tt)) in
  ¬ In "Headset" two_devices ∧
  result (run world (acquireDevice two_devices None) tt)
    = Ok (outcome_fallback no_device_selected "Built-in Microphone") ∧
  result (run world (acquireDevice two_devices (Some "Headset")) tt)
    = Ok (outcome_fallback preferred_device_unavailable
            "Built-in Microphone").
Proof.
  cbv zeta.
  assert (Hmissing : ¬ In "Headset" two_devices)
    by (simpl; intros [Heq | [Heq | []]]; discriminate Heq).
  split; [exact Hmissing|]. split.
  - apply (fallback_is_first_device (H := binary32_numbers) _ tt
             two_devices "Built-in Microphone" None);
      [reflexivity | discriminate | left; reflexivity].
  - apply (fallback_is_first_device (H := binary32_numbers) _ tt
             two_devices "Built-in Microphone" (Some "Headset")
             eq_refl) with (preferred := "Headset");
      [discriminate | reflexivity | discriminate | exact Hmissing].
Defined.

(** C5 as stated fails: the stop result carries the empty string as its
    file path; no file is read and the returned bytes are the 44 bytes
    the encoder produces for the (empty) raw samples. *)
Lemma stop_with_empty_path_encodes :
  let world := scripted (studio (inl None) (inl tt)
                           (inl recording_with_empty_path)
                           (inl tt) (inl tt)) in
  filePath recording_with_empty_path = Some EmptyString ∧
  In (capture_stopped (inl recording_with_empty_path))
     (trace (run world stopRecording tt)) ∧
  (∀ path answer, ¬ In (file_read path answer)
                      (trace (run world stopRecording tt))) ∧
  result (run world stopRecording tt) =
    (λ blob, Ok blob) <$> createWavFromFloat32 [] 16000 1 ∧
  result (run world stopRecording tt) ≠
    Some (Ok (mkBlob [82; 73; 70; 70] "audio/wav")).
Proof.
  cbv zeta. split; [reflexivity|]. split; [simpl; tauto|].
  split; [intros path answer Hr; vm_compute in Hr; in_trace|].
  split; [reflexivity | discriminate].
Qed.

Lemma stop_audio_has_one_source_witness :
  let from_file := scripted (studio (inl None) (inl tt)
                               (inl recording_in_file) (inl tt) (inl tt)) in
  let from_memory := scripted (studio (inl None) (inl tt)
                                 (inl recording_in_memory)
                                 (inl tt) (inl tt)) in
  In (capture_stopped (inl recording_in_file))
     (trace (run from_file stopRecording tt)) ∧
  result (run from_file stopRecording tt) =
    Some (Ok (mkBlob [82; 73; 70; 70] "audio/wav")) ∧
  In (capture_stopped (inl recording_in_memory))
     (trace (run from_memory stopRecording tt)) ∧
  ∃ blob,
    createWavFromFloat32 [1065353216; 3212836864] 16000 1 = Some blob ∧
    result (run from_memory stopRecording tt) = Some (Ok blob).
Proof.
  cbv zeta.
  assert (Hfile : In (capture_stopped (inl recording_in_file))
                    (trace (run (scripted (studio (inl None) (inl tt)
                                             (inl recording_in_file)
                                             (inl tt) (inl tt)))
                              stopRecording tt)))
    by (simpl; tauto).
  assert (Hmemory : In (capture_stopped (inl recording_in_memory))
                      (trace (run (scripted (studio (inl None) (inl tt)
                                               (inl recording_in_memory)
                                               (inl tt) (inl tt)))
                                stopRecording tt)))
    by (left; reflexivity).
  split; [exact Hfile|]. split.
  - apply (stop_audio_has_one_source (H := binary32_numbers) _ tt
             recording_in_file Hfile) with (path := "/tmp/recording.wav");
      [reflexivity | discriminate | simpl; tauto].
  - split; [exact Hmemory|].
    apply (stop_audio_has_one_source (H := binary32_numbers) _ tt
             recording_in_memory Hmemory).
    left. reflexivity.
Defined.

Lemma close_failure_keeps_audio_witness :
  let world := scripted (studio (inl None) (inl tt) (inl recording_in_file)
                           (inl tt) (inr "session is busy")) in
  In (session_closed (inr "session is busy"))
     (trace (run world stopRecording tt)) ∧
  ∃ blob,
    result (run world stopRecording tt) = Some (Ok blob)
    ∧ In (error_logged "Failed to close recording session:"
            (cause_invoke
               (mkTauriInvokeError "close_recording_session"
                  "session is busy")))
         (trace (run world stopRecording tt)).
Proof.
  cbv zeta.
  assert (Hclose : In (session_closed (inr "session is busy"))
                     (trace (run (scripted (studio (inl None) (inl tt)
                                              (inl recording_in_file)
                                              (inl tt)
                                              (inr "session is busy")))
                               stopRecording tt)))
    by (simpl; tauto).
  split; [exact Hclose|].
  destruct (close_failure_keeps_audio (H := binary32_numbers)
              (scripted (studio (inl None) (inl tt) (inl recording_in_file)
                           (inl tt) (inr "session is busy"))) tt
              recording_in_file "session is busy")
    as (blob & Hresult & Hlogged & _);
    [ simpl; tauto
    | intros path error Hr; vm_compute in Hr; in_trace
    | exact Hclose
    | exists blob; split; assumption ].
Defined.

Lemma cancel_without_recording_witness :
  let world := scripted (studio (inl None) (inl tt) (inl recording_in_file)
                           (inl tt) (inl tt)) in
  In (got_recording_id (inl None)) (trace (run world cancelRecording tt)) ∧
  result (run world cancelRecording tt) = Ok status_no_recording ∧
  trace (run world cancelRecording tt) = [got_recording_id (inl None)].
Proof.
  cbv zeta.
  destruct (cancel_without_recording (H := binary32_numbers)
              (scripted (studio (inl None) (inl tt) (inl recording_in_file)
                           (inl tt) (inl tt))) tt)
    as (Hresult & Htrace & _);
    [ left; reflexivity | ].
  split; [left; reflexivity|]. split; assumption.
Defined.

(** C8 as stated fails: the stop call of a cancel fails, the cancel
    succeeds, and nothing has been logged. *)
Lemma cancel_stop_failure_is_not_logged :
  let world := scripted (studio (inl (Some "rec-1")) (inl tt)
                           (inr "no active capture") (inl tt) (inl tt)) in
  In (got_recording_id (inl (Some "rec-1")))
     (trace (run world cancelRecording tt)) ∧
  In (capture_stopped (inr "no active capture"))
     (trace (run world cancelRecording tt)) ∧
  result (run world cancelRecording tt) = Ok status_cancelled ∧
  ∀ label value, ¬ In (error_logged label value)
                     (trace (run world cancelRecording tt)).
Proof.
  cbv zeta. split; [simpl; tauto|]. split; [simpl; tauto|].
  split; [reflexivity|].
  intros label value Hr. vm_compute in Hr. in_trace.
Qed.

Lemma cancel_only_fails_on_id_query_witness :
  let world := scripted (studio (inl (Some "rec-1")) (inl tt)
                           (inl recording_in_file)
                           (inr "permission denied")
                           (inr "session is busy")) in
  In (got_recording_id (inl (Some "rec-1")))
     (trace (run world cancelRecording tt)) ∧
  In (file_removed "/tmp/recording.wav" (inr "permission denied"))
     (trace (run world cancelRecording tt)) ∧
  In (session_closed (inr "session is busy"))
     (trace (run world cancelRecording tt)) ∧
  result (run world cancelRecording tt) = Ok status_cancelled.
Proof.
  cbv zeta.
  destruct (cancel_only_fails_on_id_query (H := binary32_numbers)
              (scripted (studio (inl (Some "rec-1")) (inl tt)
                           (inl recording_in_file)
                           (inr "permission denied")
                           (inr "session is busy"))) tt)
    as [_ Hcancel].
  destruct (Hcancel "rec-1") as (Hresult & _);
    [ left; reflexivity | discriminate | ].
  split; [left; reflexivity|]. split; [simpl; tauto|].
  split; [simpl; tauto | exact Hresult].
Defined.

(** C9 as stated fails: two sessions that differ in their recording id
    only, whose init call fails in the same way, get the same error;
    the error holds the two devices and the engine error, and nothing of
    the recording. *)
Lemma init_error_omits_recording_context :
  let world := scripted (studio (inl None) (inr "device is busy")
                           (inl recording_in_file) (inl tt) (inl tt)) in
  let params id :=
    mkStartRecordingParams "desktop" (Some "USB Microphone") id None None in
  In (session_inited (mkInitArgs (Some "USB Microphone") "rec-1" None None)
        (inr "device is busy"))
     (trace (run world (startRecording (params "rec-1")) tt)) ∧
  In (session_inited (mkInitArgs (Some "USB Microphone") "rec-2" None None)
        (inr "device is busy"))
     (trace (run world (startRecording (params "rec-2")) tt)) ∧
  result (run world (startRecording (params "rec-1")) tt) =
    RecorderServiceErr
      "We encountered an issue while setting up your recording session. This could be because your microphone is being used by another app, your microphone permissions are denied, or the selected recording device is disconnected"
      (ctx_session (Some "USB Microphone") (Some "USB Microphone"))
      (cause_invoke
         (mkTauriInvokeError "init_recording_session" "device is busy")) ∧
  result (run world (startRecording (params "rec-1")) tt) =
  result (run world (startRecording (params "rec-2")) tt).
Proof.
  cbv zeta. split; [simpl; tauto|]. split; [simpl; tauto|].
  split; reflexivity.
Qed.

Lemma init_failure_aborts_start_witness :
  let world := scripted (studio (inl None) (inr "device is busy")
                           (inl recording_in_file) (inl tt) (inl tt)) in
  let params := desktop_params (Some "USB Microphone") in
  result (run world (startRecording params) tt) =
    RecorderServiceErr
      "We encountered an issue while setting up your recording session. This could be because your microphone is being used by another app, your microphone permissions are denied, or the selected recording device is disconnected"
      (ctx_session (Some "USB Microphone") (Some "USB Microphone"))
      (cause_invoke
         (mkTauriInvokeError "init_recording_session" "device is busy"))
  ∧ (∀ r, ¬ In (capture_started r)
              (trace (run world (startRecording params) tt)))
  ∧ (∀ r, ¬ In (session_closed r)
              (trace (run world (startRecording params) tt))).
Proof.
  cbv zeta.
  apply (init_failure_aborts_start (H := binary32_numbers)
           (scripted (studio (inl None) (inr "device is busy")
                        (inl recording_in_file) (inl tt) (inl tt))) tt
           (desktop_params (Some "USB Microphone"))
           (mkInitArgs (Some "USB Microphone") "rec-1" None None)
           "device is busy").
  simpl. tauto.
Defined.

Lemma non_desktop_params_rejected_witness :
  let world := scripted (studio (inl None) (inl tt) (inl recording_in_file)
                           (inl tt) (inl tt)) in
  let params := mkStartRecordingParams "web" None "rec-1" None None in
  platform params ≠ "desktop" ∧
  trace (run world (startRecording params) tt) = [].
Proof.
  cbv zeta.
  assert (Hweb : platform (mkStartRecordingParams "web" None "rec-1" None None)
                 ≠ "desktop") by discriminate.
  split; [exact Hweb|].
  apply (non_desktop_params_rejected (H := binary32_numbers) _ tt _ Hweb).
Defined.

(** * Further properties of the encoder *)

Lemma byte_of_ToUint32 x k : (k < 4)%nat → byte_of (ToUint32 x) k = byte_of x k.
Proof.
  intros Hk. rewrite !byte_of_div_mod. unfold ToUint32.
  destruct k as [|[|[|[|k]]]]; [| | | | lia].
  - change (2 ^ (8 * Z.of_nat 0)) with 1. change (2 ^ 8) with 256.
    change (2 ^ 32) with 4294967296. rewrite !Z.div_1_r.
    Z.div_mod_to_equations. lia.
  - change (2 ^ (8 * Z.of_nat 1)) with 256. change (2 ^ 8) with 256.
    change (2 ^ 32) with 4294967296. Z.div_mod_to_equations. lia.
  - change (2 ^ (8 * Z.of_nat 2)) with 65536. change (2 ^ 8) with 256.
    change (2 ^ 32) with 4294967296. Z.div_mod_to_equations. lia.
  - change (2 ^ (8 * Z.of_nat 3)) with 16777216. change (2 ^ 8) with 256.
    change (2 ^ 32) with 4294967296. Z.div_mod_to_equations. lia.
Qed.

Lemma byte_of_ToUint16 x k : (k < 2)%nat → byte_of (ToUint16 x) k = byte_of x k.
Proof.
  intros Hk. rewrite !byte_of_div_mod. unfold ToUint16.
  destruct k as [|[|k]]; [| | lia].
  - change (2 ^ (8 * Z.of_nat 0)) with 1. change (2 ^ 8) with 256.
    change (2 ^ 16) with 65536. rewrite !Z.div_1_r.
    Z.div_mod_to_equations. lia.
  - change (2 ^ (8 * Z.of_nat 1)) with 256. change (2 ^ 8) with 256.
    change (2 ^ 16) with 65536. Z.div_mod_to_equations. lia.
Qed.

(** The four bytes of a value determine it modulo 2^32. *)
Lemma float32_bytes_recompose x :
  byte_of x 0 + 2 ^ 8 * byte_of x 1 + 2 ^ 16 * byte_of x 2 +
  2 ^ 24 * byte_of x 3 = ToUint32 x.
Proof.
  rewrite <- (byte_of_ToUint32 x 0), <- (byte_of_ToUint32 x 1),
    <- (byte_of_ToUint32 x 2), <- (byte_of_ToUint32 x 3) by lia.
  apply u32_recompose, ToUint32_range.
Qed.

Lemma float32_bytes_inj x y :
  float32_bytes x = float32_bytes y → ToUint32 x = ToUint32 y.
Proof.
  intros Heq. rewrite <- (float32_bytes_recompose x),
    <- (float32_bytes_recompose y).
  unfold float32_bytes in Heq. injection Heq as -> -> -> ->. reflexivity.
Qed.

Lemma float32_bytes_cons x (rest : list float32) :
  (x :: rest) ≫= float32_bytes = float32_bytes x ++ (rest ≫= float32_bytes).
Proof. reflexivity. Qed.

Lemma float32_bytes_lookup (samples : list float32) : ∀ i x k,
  samples !! i = Some x → (k < 4)%nat →
  (samples ≫= float32_bytes) !! (4 * i + k)%nat = Some (byte_of x k).
Proof.
  induction samples as [|y rest IH]; intros i x k Hx Hk; [discriminate Hx|].
  rewrite float32_bytes_cons. destruct i as [|i].
  - injection Hx as ->. rewrite lookup_app_l by (simpl; lia).
    destruct k as [|[|[|[|k]]]]; [reflexivity .. | lia].
  - rewrite lookup_app_r by (simpl; lia).
    replace (4 * S i + k - length (float32_bytes y))%nat
      with (4 * i + k)%nat by (simpl; lia).
    apply IH; assumption.
Qed.

Lemma float32_bytes_flat_inj (s1 : list float32) : ∀ s2 : list float32,
  s1 ≫= float32_bytes = s2 ≫= float32_bytes →
  map ToUint32 s1 = map ToUint32 s2.
Proof.
  induction s1 as [|x s1 IH]; intros [|y s2] Heq;
    [reflexivity | discriminate Heq | discriminate Heq|].
  rewrite !float32_bytes_cons in Heq.
  apply app_inj_1 in Heq as [Hhead Htail]; [|reflexivity].
  cbn [map]. f_equal; [apply float32_bytes_inj, Hhead | apply IH, Htail].
Qed.


(** X2. Reading the data segment back: for every sample i of the input,
    the encoder returns a buffer whose little-endian u32 at offset
    44 + 4 i is the bit pattern of that sample (modulo 2^32, so the
    pattern itself for a 32-bit value). *)
Theorem encoder_sample_round_trip samples sampleRate numChannels i x :
  samples !! i = Some x →
  createWavFromFloat32 samples sampleRate numChannels
    ≫= (λ blob, getUint32 (blob_bytes blob) (44 + 4 * i) true)
  = Some (x mod 2 ^ 32).
Proof.
  rewrite createWavFromFloat32_bytes. intros Hx.
  cbn [mbind option_bind blob_bytes].
  pose proof (wav_header_length (length samples) sampleRate numChannels)
    as Hheader.
  assert (Hbyte : ∀ k, (k < 4)%nat →
            (wav_header (length samples) sampleRate numChannels ++
             (samples ≫= float32_bytes)) !! (44 + 4 * i + k)%nat
            = Some (byte_of x k)).
  { intros k Hk. rewrite lookup_app_r by lia.
    replace (44 + 4 * i + k - length
               (wav_header (length samples) sampleRate numChannels))%nat
      with (4 * i + k)%nat by lia.
    apply float32_bytes_lookup; assumption. }
  unfold getUint32.
  replace (44 + 4 * i)%nat with (44 + 4 * i + 0)%nat at 1 by lia.
  replace (S (44 + 4 * i)) with (44 + 4 * i + 1)%nat by lia.
  replace (S (44 + 4 * i + 1)) with (44 + 4 * i + 2)%nat by lia.
  replace (S (44 + 4 * i + 2)) with (44 + 4 * i + 3)%nat by lia.
  rewrite !Hbyte by lia. cbn [mbind option_bind].
  rewrite float32_bytes_recompose. reflexivity.
Qed.

(** X3. The encoding loses nothing: two calls that return the same blob
    were given the same number of samples with the same 32-bit
    patterns, in the same order. *)
Theorem encoder_lossless s1 r1 c1 s2 r2 c2 :
  createWavFromFloat32 s1 r1 c1 = createWavFromFloat32 s2 r2 c2 →
  length s1 = length s2
  ∧ map (λ x, x mod 2 ^ 32) s1 = map (λ x, x mod 2 ^ 32) s2.
Proof.
  rewrite !createWavFromFloat32_bytes. intros Heq.
  assert (Hbytes : wav_header (length s1) r1 c1 ++ (s1 ≫= float32_bytes)
                   = wav_header (length s2) r2 c2 ++ (s2 ≫= float32_bytes))
    by congruence.
  clear Heq. apply app_inj_1 in Hbytes as [_ Hdata];
    [|rewrite !wav_header_length; reflexivity].
  apply float32_bytes_flat_inj in Hdata.
  split; [|exact Hdata].
  apply (f_equal length) in Hdata. rewrite !length_map in Hdata. exact Hdata.
Qed.

(** X4. Encoding a concatenation: the three encodings succeed and the
    data segment of [s1 ++ s2] is the data segment of [s1] followed by
    the data segment of [s2]. *)
Theorem encoder_data_of_concatenation s1 s2 sampleRate numChannels :
  ∃ b1 b2 b,
    createWavFromFloat32 s1 sampleRate numChannels = Some b1
    ∧ createWavFromFloat32 s2 sampleRate numChannels = Some b2
    ∧ createWavFromFloat32 (s1 ++ s2) sampleRate numChannels = Some b
    ∧ drop 44 (blob_bytes b)
      = drop 44 (blob_bytes b1) ++ drop 44 (blob_bytes b2).
Proof.
  rewrite !createWavFromFloat32_bytes. eexists _, _, _.
  repeat (split; [reflexivity|]). cbn [blob_bytes].
  rewrite !drop_app_length' by reflexivity.
  apply bind_app.
Qed.

(** ** [writeString] *)

Lemma setUint8_in_range (view : list Z) n v :
  (n < length view)%nat →
  setUint8 view n v = Some (<[n := ToUint8 v]> view).
Proof.
  intros Hn. unfold setUint8, in_range.
  destruct (Nat.leb_spec (n + 1) (length view)); [reflexivity | lia].
Qed.

Lemma setUint8_out_of_range (view : list Z) n v :
  (length view ≤ n)%nat → setUint8 view n v = None.
Proof.
  intros Hn. unfold setUint8, in_range.
  destruct (Nat.leb_spec (n + 1) (length view)); [lia | reflexivity].
Qed.

Lemma writeString_from_fits (s : CodeUnits) : ∀ (view : list Z) offset i,
  (offset + i + length s ≤ length view)%nat →
  writeString_from view offset s i
  = Some (take (offset + i) view ++ map ToUint8 s
          ++ drop (offset + i + length s) view).
Proof.
  induction s as [|charCode rest IH]; intros view offset i Hfit.
  - cbn [writeString_from length map app].
    rewrite Nat.add_0_r, take_drop. reflexivity.
  - cbn [writeString_from length map] in *.
    rewrite setUint8_in_range by lia. cbn [mbind option_bind].
    rewrite IH by (rewrite length_insert; lia).
    f_equal.
    replace (offset + S i)%nat with (S (offset + i)) by lia.
    rewrite (take_S_r _ _ (ToUint8 charCode))
      by (apply list_lookup_insert_eq; lia).
    rewrite take_insert_ge by lia.
    rewrite drop_insert_lt by lia.
    rewrite <- app_assoc. cbn [app].
    replace (S (offset + i) + length rest)%nat
      with (offset + i + S (length rest))%nat by lia.
    reflexivity.
Qed.

Lemma writeString_from_throws (s : CodeUnits) : ∀ (view : list Z) offset i,
  writeString_from view offset s i = None
  ↔ s ≠ [] ∧ (length view < offset + i + length s)%nat.
Proof.
  induction s as [|charCode rest IH]; intros view offset i.
  - cbn. split; [discriminate | intros [Hne _]; contradiction].
  - cbn [writeString_from length].
    destruct (Nat.le_gt_cases (length view) (offset + i)) as [Hout | Hin].
    + rewrite setUint8_out_of_range by exact Hout.
      split; [intros _; split; [discriminate | lia] | reflexivity].
    + rewrite setUint8_in_range by exact Hin. cbn [mbind option_bind].
      rewrite IH, length_insert. split.
      * intros [_ Hlong]. split; [discriminate | lia].
      * intros [_ Hlong]. split; [|lia].
        intros ->. cbn in Hlong. lia.
Qed.

(** X5. [writeString] on a string that fits (its number of UTF-16 code
    units, from [offset], is within the buffer): it succeeds, the buffer
    keeps its length, the bytes from [offset] on are the code units of
    the string reduced modulo 256, one byte per unit, and every other
    byte is untouched. *)
Theorem writeString_in_place (view : list Z) offset (s : CodeUnits) :
  (offset + length s ≤ length view)%nat →
  ∃ view',
    writeString view offset s = Some view'
    ∧ length view' = length view
    ∧ bytes_at view' offset (length s) = map (λ charCode, charCode mod 2 ^ 8) s
    ∧ take offset view' = take offset view
    ∧ drop (offset + length s) view' = drop (offset + length s) view.
Proof.
  intros Hfit. unfold writeString.
  rewrite writeString_from_fits by lia. rewrite Nat.add_0_r.
  eexists. split; [reflexivity|].
  assert (Hcodes : length (map ToUint8 s) = length s) by apply length_map.
  assert (Htake : length (take offset view) = offset)
    by (rewrite length_take; lia).
  split; [|split; [|split]].
  - rewrite !length_app, Htake, Hcodes, length_drop. lia.
  - unfold bytes_at. rewrite drop_app_length' by (symmetry; exact Htake).
    rewrite take_app_length' by (symmetry; exact Hcodes). reflexivity.
  - rewrite take_app_length' by (symmetry; exact Htake). reflexivity.
  - rewrite app_assoc, drop_app_length'; [reflexivity|].
    rewrite length_app, Htake, Hcodes. reflexivity.
Qed.

(** X6. [writeString] throws (a [RangeError] of [setUint8]) exactly when
    the string is not empty and its UTF-16 code units do not fit
    between [offset] and the end of the buffer; the empty string is
    accepted at any offset. *)
Theorem writeString_throws_iff (view : list Z) offset (s : CodeUnits) :
  writeString view offset s = None
  ↔ s ≠ [] ∧ (length view < offset + length s)%nat.
Proof.
  unfold writeString. rewrite writeString_from_throws, Nat.add_0_r.
  reflexivity.
Qed.

(** * The transcription service *)

Section Transcription.
Context {W : Type}.
Variable handle : ∀ X, WhisperCpp.Event X → W → X * W.
Variable w : W.

Import WhisperCpp.

Ltac run_transcribe :=
  unfold WhisperCpp.run, transcribe, catch_transcribe;
  match goal with
  | |- context [truthy (Some ?p)] =>
      let Hmodel := fresh "Hmodel" in
      destruct (truthy (Some p)) eqn:Hmodel
  end;
  cbn -[String.append known_names];
  [ answer_next handle;
    match goal with x : bool + JsError |- _ => destruct x as [[|] | ?] end;
    cbn -[String.append known_names];
    [ answer_next handle;
      match goal with x : string + Thrown |- _ => destruct x end;
      cbn -[String.append known_names]
    | | ]
  | ].


(** X20. When the existence check of the model file answers false, or
    throws, [transcribe] returns the model-not-found error, quoting the
    path, and the audio is never sent to the engine. *)
Theorem transcribe_model_not_found audioBlob outputLanguage modelPath answer :
  In (existence_checked modelPath answer)
     (Free.trace (run handle (transcribe audioBlob outputLanguage modelPath) w)) →
  answer ≠ inl true →
  Free.result (run handle (transcribe audioBlob outputLanguage modelPath) w) =
    WhisperingErr "❌ Model File Not Found"
      (String.append "The model file "
         (String.append quote
            (String.append modelPath
               (String.append quote " does not exist."))))
      (action_link "Select model" "/settings/transcription")
  ∧ ∀ args r,
      ¬ In (transcription_invoked args r)
          (Free.trace (run handle (transcribe audioBlob outputLanguage modelPath)
                    w)).
Proof.
  run_transcribe.
  all: intros Hcheck Hanswer; in_trace; try contradiction.
  all: split; [reflexivity | intros args r Hr; in_trace].
Qed.

(** X21. What reaches the engine: the transcription command is invoked
    at most after a non-empty model path was checked and found, with
    exactly the bytes of the blob, that model path, and the output
    language, [null] standing for ['auto']. *)
Theorem transcribe_sends_the_blob audioBlob outputLanguage modelPath args r :
  In (transcription_invoked args r)
     (Free.trace (run handle (transcribe audioBlob outputLanguage modelPath) w)) →
  WhisperCpp.audioData args = blob_bytes audioBlob
  ∧ WhisperCpp.modelPath args = modelPath
  ∧ modelPath ≠ EmptyString
  ∧ (outputLanguage = "auto" → language args = None)
  ∧ (outputLanguage ≠ "auto" → language args = Some outputLanguage)
  ∧ In (existence_checked modelPath (inl true))
       (Free.trace (run handle (transcribe audioBlob outputLanguage modelPath) w)).
Proof.
  run_transcribe.
  all: intros Hinvoked; in_trace.
  all: cbn [WhisperCpp.audioData WhisperCpp.modelPath language].
  all: split; [reflexivity|]; split; [reflexivity|].
  all: split; [intros ->; discriminate Hmodel|].
  all: split; [intros ->; reflexivity|].
  all: split; [|left; reflexivity].
  all: intros Hlanguage;
    destruct (String.eqb_spec outputLanguage "auto"); [contradiction|];
    reflexivity.
Qed.

(** X22. [transcribe] returns a text exactly when the engine resolved
    the transcription command with that text. *)
Theorem transcribe_succeeds_iff audioBlob outputLanguage modelPath text :
  Free.result (run handle (transcribe audioBlob outputLanguage modelPath) w)
    = Ok text
  ↔ ∃ args,
      In (transcription_invoked args (inl text))
         (Free.trace (run handle (transcribe audioBlob outputLanguage modelPath)
                   w)).
Proof.
  run_transcribe.
  all: split; [intros Hok | intros [args Hin]; in_trace; try reflexivity].
  all: try discriminate Hok.
  - injection Hok as ->. eexists. right. left. reflexivity.
  - match type of Hok with
    | context [WhisperCppErrorType ?e] =>
        destruct (WhisperCppErrorType e) as [[name message]|]
    end; [|discriminate Hok].
    repeat (destruct (String.eqb name _); [discriminate Hok|]).
    discriminate Hok.
Qed.

Lemma validated_name unknownError name message :
  WhisperCppErrorType unknownError = Some (name, message) →
  thrown_name unknownError = Some name
  ∧ thrown_message unknownError = Some message
  ∧ (name = "AudioReadError" ∨ name = "GpuError"
     ∨ name = "ModelLoadError" ∨ name = "TranscriptionError").
Proof.
  unfold WhisperCppErrorType.
  destruct (thrown_name unknownError) as [n|]; [|discriminate].
  destruct (thrown_message unknownError) as [m|]; [|discriminate].
  destruct (existsb _ _) eqn:Hknown; [|discriminate].
  intros [= <- <-]. split; [reflexivity|]. split; [reflexivity|].
  apply existsb_exists in Hknown as (known & Hin & Heq).
  apply String.eqb_eq in Heq. subst known.
  cbn in Hin. destruct Hin as [<- | [<- | [<- | [<- | []]]]]; auto.
Qed.

(** X23. A rejection of the transcription command whose [name] is one
    of the four names of the engine and whose [message] is a string is
    reported with that message as description and a title that depends
    on the name only; a GPU error links to the settings, the three
    others carry a fresh [Error] built from the message. *)
Theorem transcribe_reports_engine_errors audioBlob outputLanguage modelPath
    args unknownError name message :
  In (transcription_invoked args (inr unknownError))
     (Free.trace (run handle (transcribe audioBlob outputLanguage modelPath) w)) →
  thrown_name unknownError = Some name →
  thrown_message unknownError = Some message →
  In name known_names →
  ∃ error,
    Free.result (run handle (transcribe audioBlob outputLanguage modelPath) w)
      = Err error
    ∧ description error = message
    ∧ (name = "ModelLoadError" →
       title error = "🤖 Model Loading Error"
       ∧ action error = action_more_details (new_Error message))
    ∧ (name = "GpuError" →
       title error = "🎮 GPU Error"
       ∧ action error
         = action_link "Configure settings" "/settings/transcription")
    ∧ (name = "AudioReadError" →
       title error = "🔊 Audio Read Error"
       ∧ action error = action_more_details (new_Error message))
    ∧ (name = "TranscriptionError" →
       title error = "❌ Transcription Error"
       ∧ action error = action_more_details (new_Error message)).
Proof.
  run_transcribe.
  all: intros Hinvoked Hname Hmessage Hknown; in_trace.
  unfold WhisperCppErrorType. rewrite Hname, Hmessage.
  cbn in Hknown.
  destruct Hknown as [<- | [<- | [<- | [<- | []]]]]; cbn.
  all: eexists; split; [reflexivity|]; split; [reflexivity|].
  all: repeat split; first [reflexivity | discriminate].
Qed.

(** X24. Any other rejection (no string [name], a [name] that is not one
    of the four, or no string [message]) is reported as an unexpected
    error, described by [extractErrorMessage] and carrying the thrown
    value itself. *)
Theorem transcribe_reports_unexpected_errors audioBlob outputLanguage
    modelPath args unknownError :
  In (transcription_invoked args (inr unknownError))
     (Free.trace (run handle (transcribe audioBlob outputLanguage modelPath) w)) →
  (∀ name, thrown_name unknownError = Some name → ¬ In name known_names)
  ∨ thrown_message unknownError = None →
  Free.result (run handle (transcribe audioBlob outputLanguage modelPath) w) =
    WhisperingErr "❌ Unexpected Whisper C++ Error"
      (extracted_message unknownError)
      (action_more_details (thrown_value unknownError)).
Proof.
  intros Hinvoked Hinvalid.
  assert (Hnone : WhisperCppErrorType unknownError = None).
  { destruct (WhisperCppErrorType unknownError) as [[name message]|] eqn:Hv;
      [|reflexivity].
    apply validated_name in Hv as (Hname & Hmessage & Hknown).
    destruct Hinvalid as [Hunknown | Hnomessage]; [|congruence].
    exfalso. apply (Hunknown name Hname). cbn.
    destruct Hknown as [-> | [-> | [-> | ->]]]; auto. }
  clear Hinvalid. revert Hinvoked. run_transcribe.
  all: intros Hinvoked; in_trace.
  rewrite Hnone. reflexivity.
Qed.

(** X25. The [default] branch of the error switch is dead: whatever the
    world answers, [transcribe] never returns the generic
    "Whisper C++ Error". *)
Theorem transcribe_never_reports_generic_error audioBlob outputLanguage
    modelPath error :
  Free.result (run handle (transcribe audioBlob outputLanguage modelPath) w)
    = Err error →
  title error ≠ "❌ Whisper C++ Error".
Proof.
  run_transcribe.
  all: intros Herr; try discriminate Herr.
  all: try (injection Herr as <-; discriminate).
  match type of Herr with
  | context [WhisperCppErrorType ?e] =>
      destruct (WhisperCppErrorType e) as [[name message]|] eqn:Hv
  end; [|injection Herr as <-; discriminate].
  apply validated_name in Hv as (_ & _ & Hknown).
  destruct Hknown as [-> | [-> | [-> | ->]]]; cbn in Herr;
    injection Herr as <-; discriminate.
Qed.
End Transcription.

(** * The browser recorder *)

Section WebRecording.
Context {W : Type}.
Variable handle : ∀ X, WebRecorder.Event X → W → X * W.
Variable w : W.

Import WebRecorder.

Ltac run_web :=
  unfold WebRecorder.run, startRecording, stopRecording,
    stopRecording_callback;
  cbn;
  repeat (first [ answer_next handle
                | match goal with
                  | x : _ + JsError |- _ => destruct x
                  end ];
          cbn).

(** X26. [startRecording] never stops or destroys anything, whatever
    recorder is current. When the microphone is refused the promise is
    rejected with that error and the recorder is unchanged; when it is
    granted a recorder is created on the stream with the fixed options
    (WAV, stereo, buffer 16384), started, and becomes the current one:
    a previous recorder is dropped without being destroyed. *)
Theorem web_start_replaces_the_recorder recorder :
  match Free.trace (run handle (startRecording recorder) w) with
  | [media_requested (inr error)] =>
      Free.result (run handle (startRecording recorder) w)
      = (Rejected error, recorder)
  | [media_requested (inl stream); recorder_created stream' used created;
     recorder_started started] =>
      stream' = stream ∧ used = options ∧ started = created
      ∧ numberOfAudioChannels used = 2 ∧ mimeType used = "audio/wav"
      ∧ Free.result (run handle (startRecording recorder) w)
        = (Resolved tt, Some created)
  | _ => False
  end.
Proof. run_web; repeat split. Qed.

(** X27. The callback of a stop releases the current recorder once: it
    takes the blob of the recorder that is current when it runs, then
    destroys that recorder, resolves with the blob and leaves no
    recorder. After it, a callback that is still to run (a second stop
    was requested on the same recorder) and a new [stopRecording] both
    reject with "Recorder is not initialized." and touch nothing. *)
Theorem web_callback_releases_once current :
  let first := run handle (stopRecording_callback (Some current)) w in
  let late_callback :=
    run handle (stopRecording_callback (Free.result first).2)
      (Free.world first) in
  let late_stop :=
    run handle (stopRecording (Free.result first).2) (Free.world first) in
  (∃ audioBlob,
     Free.trace first
     = [blob_taken current audioBlob; recorder_destroyed current]
     ∧ Free.result first = (Resolved audioBlob, None))
  ∧ Free.result late_callback
    = (Rejected "Recorder is not initialized.", None)
  ∧ Free.trace late_callback = []
  ∧ Free.result late_stop
    = (Some (Rejected "Recorder is not initialized."), None)
  ∧ Free.trace late_stop = [].
Proof.
  cbv zeta. run_web. split; [eexists; split; reflexivity|].
  repeat split.
Qed.

(** X28. A recording from start to finish: when the microphone is
    granted, starting from no recorder, the stop is requested on the
    recorder the start created, the callback takes the blob from that
    same recorder and destroys it, the promise resolves with that blob,
    and no recorder is left. *)
Theorem web_record_round_trip stream :
  let started := run handle (startRecording None) w in
  let stopping :=
    run handle (stopRecording (Free.result started).2)
      (Free.world started) in
  let finished :=
    run handle (stopRecording_callback (Free.result stopping).2)
      (Free.world stopping) in
  In (media_requested (inl stream)) (Free.trace started) →
  ∃ created audioBlob,
    In (recorder_created stream options created) (Free.trace started)
    ∧ Free.trace stopping = [stop_requested created]
    ∧ (Free.result stopping).1 = None
    ∧ Free.trace finished
      = [blob_taken created audioBlob; recorder_destroyed created]
    ∧ Free.result finished = (Resolved audioBlob, None).
Proof.
  cbv zeta. run_web.
  all: intros Hgranted; in_trace.
  eexists _, _. split; [right; left; reflexivity|].
  repeat split.
Qed.
End WebRecording.

(** * Further concrete runs *)


Lemma encoder_sample_round_trip_witness :
  createWavFromFloat32 [1065353216; 3212836864] 16000 1
    ≫= (λ blob, getUint32 (blob_bytes blob) (44 + 4 * 1) true)
  = Some (3212836864 mod 2 ^ 32).
Proof.
  apply (encoder_sample_round_trip [1065353216; 3212836864] 16000 1 1
           3212836864).
  reflexivity.
Defined.

Lemma encoder_lossless_witness :
  length [1065353216; 3212836864] = length [1065353216; 3212836864]
  ∧ map (λ x, x mod 2 ^ 32) [1065353216; 3212836864]
    = map (λ x, x mod 2 ^ 32) [1065353216; 3212836864].
Proof.
  apply (encoder_lossless [1065353216; 3212836864] 16000 1
           [1065353216; 3212836864] 16000 1).
  reflexivity.
Defined.

Lemma writeString_in_place_witness :
  ∃ view',
    writeString [1; 2; 3; 4; 5; 6; 7; 8] 2 [82; 8364; 70] = Some view'
    ∧ length view' = 8%nat
    ∧ bytes_at view' 2 3 = [82; 172; 70]
    ∧ take 2 view' = [1; 2]
    ∧ drop 5 view' = [6; 7; 8].
Proof.
  apply (writeString_in_place [1; 2; 3; 4; 5; 6; 7; 8] 2 [82; 8364; 70]).
  simpl. lia.
Defined.

Lemma session_device_is_enumerated_witness :
  let world := scripted (studio (inl None) (inl tt) (inl recording_in_file)
                           (inl tt) (inl tt)) in
  let args := mkInitArgs (Some "Built-in Microphone") "rec-1" None None in
  In (session_inited args (inl tt))
     (trace (run world (startRecording (desktop_params (Some "Headset"))) tt))
  ∧ ∃ device,
      arg_deviceIdentifier args = Some device
      ∧ In device two_devices ∧ device ≠ EmptyString.
Proof.
  cbv zeta.
  assert (Hinit : In (session_inited
                        (mkInitArgs (Some "Built-in Microphone") "rec-1"
                           None None) (inl tt))
                    (trace (run (scripted (studio (inl None) (inl tt)
                                             (inl recording_in_file)
                                             (inl tt) (inl tt)))
                              (startRecording
                                 (desktop_params (Some "Headset"))) tt)))
    by (simpl; tauto).
  split; [exact Hinit|].
  apply (session_device_is_enumerated (H := binary32_numbers)
           (scripted (studio (inl None) (inl tt) (inl recording_in_file)
                        (inl tt) (inl tt))) tt
           (desktop_params (Some "Headset")) two_devices _ (inl tt));
    [left; reflexivity | exact Hinit].
Defined.

Lemma no_usable_device_aborts_start_witness :
  let world := scripted (room (inl []) (inl tt) (inl [])) in
  let params := desktop_params (Some "USB Microphone") in
  result (run world (startRecording params) tt) =
    RecorderServiceErr
      "We couldn't find the selected microphone. Make sure it's connected and try again!"
      (ctx_devices (Some "USB Microphone") []) cause_undefined
  ∧ trace (run world (startRecording params) tt) = [enumerated (inl [])].
Proof.
  cbv zeta.
  apply (no_usable_device_aborts_start (H := binary32_numbers)
           (scripted (room (inl []) (inl tt) (inl []))) tt
           (desktop_params (Some "USB Microphone")) []);
    left; reflexivity.
Defined.

Lemma capture_failure_leaves_session_open_witness :
  let world := scripted (room (inl two_devices) (inr "device is busy")
                           (inl [])) in
  let params := desktop_params (Some "Headset") in
  let deviceOutcome :=
    outcome_fallback preferred_device_unavailable "Built-in Microphone" in
  result (run world (acquireDevice two_devices (Some "Headset")) tt)
  = Ok deviceOutcome
  ∧ result (run world (startRecording params) tt) =
      RecorderServiceErr
        "Unable to start recording. Please check your microphone and try again."
        (ctx_capture (Some "Built-in Microphone") deviceOutcome)
        (cause_invoke (mkTauriInvokeError "start_recording" "device is busy"))
  ∧ ∀ r, ¬ In (session_closed r)
             (trace (run world (startRecording params) tt)).
Proof.
  cbv zeta.
  destruct (capture_failure_leaves_session_open (H := binary32_numbers)
              (scripted (room (inl two_devices) (inr "device is busy")
                           (inl []))) tt
              (desktop_params (Some "Headset")) two_devices "device is busy")
    as [(args & deviceOutcome & Hacquired & _ & Hdevice & Hresult) Hopen];
    [left; reflexivity | simpl; tauto |].
  specialize (Hacquired tt). vm_compute in Hacquired.
  injection Hacquired as <-.
  split; [reflexivity|]. split; [|exact Hopen].
  rewrite Hresult, Hdevice. reflexivity.
Defined.

Lemma init_arguments_normalised_witness :
  let world := scripted (studio (inl None) (inl tt) (inl recording_in_file)
                           (inl tt) (inl tt)) in
  let params :=
    {| platform := "desktop"; selectedDeviceId := None;
       recordingId := "rec-1"; outputFolder := Some EmptyString;
       sampleRate := Some "16000" |} in
  ∃ args,
    In (session_inited args (inl tt))
       (trace (run world (startRecording params) tt))
    ∧ arg_recordingId args = "rec-1"
    ∧ arg_outputFolder args = None
    ∧ arg_sampleRate args = Some (Number_parseInt "16000" 10).
Proof.
  cbv zeta.
  exists (mkInitArgs (Some "Built-in Microphone") "rec-1" None
            (Some (Number_parseInt "16000" 10))).
  assert (Hinit : In (session_inited
                        (mkInitArgs (Some "Built-in Microphone") "rec-1" None
                           (Some (Number_parseInt "16000" 10))) (inl tt))
                    (trace (run (scripted (studio (inl None) (inl tt)
                                             (inl recording_in_file)
                                             (inl tt) (inl tt)))
                              (startRecording
                                 {| platform := "desktop";
                                    selectedDeviceId := None;
                                    recordingId := "rec-1";
                                    outputFolder := Some EmptyString;
                                    sampleRate := Some "16000" |}) tt)))
    by (simpl; tauto).
  split; [exact Hinit|].
  destruct (init_arguments_normalised (H := binary32_numbers)
              (scripted (studio (inl None) (inl tt) (inl recording_in_file)
                           (inl tt) (inl tt))) tt _ _ _ Hinit)
    as (Hid & _ & _ & Hfolder & Hrate & _).
  split; [exact Hid|].
  split; [apply Hfolder; right; reflexivity|].
  apply Hrate; [reflexivity | discriminate].
Defined.

Lemma read_failure_leaves_session_open_witness :
  let world := scripted (room (inl two_devices) (inl tt)
                           (inr "file not found")) in
  result (run world stopRecording tt) =
    Some (RecorderServiceErr
            "Unable to read recording file. Please try again."
            (ctx_file "readRecordingFile" "/tmp/recording.wav")
            (cause_thrown "file not found"))
  ∧ ∀ r, ¬ In (session_closed r) (trace (run world stopRecording tt)).
Proof.
  cbv zeta.
  destruct (read_failure_leaves_session_open (H := binary32_numbers)
              (scripted (room (inl two_devices) (inl tt)
                           (inr "file not found"))) tt
              "/tmp/recording.wav" "file not found")
    as (Hresult & _ & Hopen); [simpl; tauto|].
  split; [exact Hresult | exact Hopen].
Defined.

Lemma stop_blob_is_wav_witness :
  let world := scripted (studio (inl None) (inl tt) (inl recording_in_memory)
                           (inl tt) (inl tt)) in
  match result (run world stopRecording tt) with
  | Some (Ok blob) =>
      blob_type blob = "audio/wav" ∧ length (blob_bytes blob) = 52%nat
  | _ => False
  end.
Proof.
  cbv zeta.
  destruct (result (run (scripted (studio (inl None) (inl tt)
                                     (inl recording_in_memory)
                                     (inl tt) (inl tt)))
                      stopRecording tt)) as [[blob | error]|] eqn:Hresult;
    [|vm_compute in Hresult; discriminate Hresult ..].
  destruct (stop_blob_is_wav (H := binary32_numbers)
              (scripted (studio (inl None) (inl tt) (inl recording_in_memory)
                           (inl tt) (inl tt))) tt blob Hresult)
    as [Htype Hlength].
  split; [exact Htype|].
  apply (Hlength recording_in_memory); [left; reflexivity | left; reflexivity].
Defined.

Lemma cancel_with_empty_id_witness :
  let world := scripted (studio (inl (Some EmptyString)) (inl tt)
                           (inl recording_in_file) (inl tt) (inl tt)) in
  result (run world cancelRecording tt) = Ok status_no_recording
  ∧ trace (run world cancelRecording tt)
    = [got_recording_id (inl (Some EmptyString))].
Proof.
  cbv zeta.
  apply (cancel_with_empty_id (H := binary32_numbers)
           (scripted (studio (inl (Some EmptyString)) (inl tt)
                        (inl recording_in_file) (inl tt) (inl tt))) tt).
  left. reflexivity.
Defined.

Lemma transcribe_model_not_found_witness :
  let world := WhisperCpp.scripted (inl false) (inl "hello") in
  let audioBlob := mkBlob [82; 73; 70; 70] "audio/wav" in
  Free.result (WhisperCpp.run world
                 (WhisperCpp.transcribe audioBlob "auto" "/models/base.bin")
                 tt)
  = WhisperCpp.WhisperingErr "❌ Model File Not Found"
      (String.append "The model file "
         (String.append WhisperCpp.quote
            (String.append "/models/base.bin"
               (String.append WhisperCpp.quote " does not exist."))))
      (WhisperCpp.action_link "Select model" "/settings/transcription")
  ∧ ∀ args r,
      ¬ In (WhisperCpp.transcription_invoked args r)
          (Free.trace (WhisperCpp.run world
                         (WhisperCpp.transcribe audioBlob "auto"
                            "/models/base.bin") tt)).
Proof.
  cbv zeta.
  apply (transcribe_model_not_found
           (WhisperCpp.scripted (inl false) (inl "hello")) tt
           (mkBlob [82; 73; 70; 70] "audio/wav") "auto" "/models/base.bin"
           (inl false));
    [left; reflexivity | discriminate].
Defined.

Lemma transcribe_sends_the_blob_witness :
  let world := WhisperCpp.scripted (inl true) (inl "hello") in
  let audioBlob := mkBlob [82; 73; 70; 70] "audio/wav" in
  ∃ args,
    In (WhisperCpp.transcription_invoked args (inl "hello"))
       (Free.trace (WhisperCpp.run world
                      (WhisperCpp.transcribe audioBlob "auto"
                         "/models/base.bin") tt))
    ∧ WhisperCpp.audioData args = [82; 73; 70; 70]
    ∧ WhisperCpp.modelPath args = "/models/base.bin"
    ∧ WhisperCpp.language args = None.
Proof.
  cbv zeta.
  exists (WhisperCpp.mkTranscribeArgs [82; 73; 70; 70] "/models/base.bin"
            None).
  assert (Hinvoked :
            In (WhisperCpp.transcription_invoked
                  (WhisperCpp.mkTranscribeArgs [82; 73; 70; 70]
                     "/models/base.bin" None) (inl "hello"))
               (Free.trace (WhisperCpp.run
                              (WhisperCpp.scripted (inl true) (inl "hello"))
                              (WhisperCpp.transcribe
                                 (mkBlob [82; 73; 70; 70] "audio/wav")
                                 "auto" "/models/base.bin") tt)))
    by (right; left; reflexivity).
  split; [exact Hinvoked|].
  destruct (transcribe_sends_the_blob
              (WhisperCpp.scripted (inl true) (inl "hello")) tt _ _ _ _ _
              Hinvoked)
    as (Hdata & Hmodel & _ & Hauto & _).
  split; [exact Hdata|]. split; [exact Hmodel|].
  apply Hauto. reflexivity.
Defined.

Lemma transcribe_reports_engine_errors_witness :
  let world :=
    WhisperCpp.scripted (inl true) (inr WhisperCpp.gpu_out_of_memory) in
  let audioBlob := mkBlob [82; 73; 70; 70] "audio/wav" in
  ∃ error,
    Free.result (WhisperCpp.run world
                   (WhisperCpp.transcribe audioBlob "en" "/models/base.bin")
                   tt) = Err error
    ∧ WhisperCpp.title error = "🎮 GPU Error"
    ∧ WhisperCpp.description error = "out of memory"
    ∧ WhisperCpp.action error
      = WhisperCpp.action_link "Configure settings" "/settings/transcription".
Proof.
  cbv zeta.
  destruct (transcribe_reports_engine_errors
              (WhisperCpp.scripted (inl true)
                 (inr WhisperCpp.gpu_out_of_memory)) tt
              (mkBlob [82; 73; 70; 70] "audio/wav") "en" "/models/base.bin"
              (WhisperCpp.mkTranscribeArgs [82; 73; 70; 70]
                 "/models/base.bin" (Some "en"))
              WhisperCpp.gpu_out_of_memory "GpuError" "out of memory")
    as (error & Hresult & Hdescription & _ & Hgpu & _);
    [ right; left; reflexivity | reflexivity | reflexivity
    | right; left; reflexivity | ].
  exists error. split; [exact Hresult|].
  destruct (Hgpu eq_refl) as [Htitle Haction].
  split; [exact Htitle|]. split; [exact Hdescription | exact Haction].
Defined.

Lemma transcribe_reports_unexpected_errors_witness :
  let world :=
    WhisperCpp.scripted (inl true) (inr WhisperCpp.engine_crashed) in
  let audioBlob := mkBlob [82; 73; 70; 70] "audio/wav" in
  Free.result (WhisperCpp.run world
                 (WhisperCpp.transcribe audioBlob "en" "/models/base.bin") tt)
  = WhisperCpp.WhisperingErr "❌ Unexpected Whisper C++ Error"
      "engine crashed"
      (WhisperCpp.action_more_details
         (WhisperCpp.thrown_value WhisperCpp.engine_crashed)).
Proof.
  cbv zeta.
  apply (transcribe_reports_unexpected_errors
           (WhisperCpp.scripted (inl true) (inr WhisperCpp.engine_crashed))
           tt (mkBlob [82; 73; 70; 70] "audio/wav") "en" "/models/base.bin"
           (WhisperCpp.mkTranscribeArgs [82; 73; 70; 70] "/models/base.bin"
              (Some "en"))
           WhisperCpp.engine_crashed);
    [right; left; reflexivity | right; reflexivity].
Defined.

Lemma transcribe_never_reports_generic_error_witness :
  let world :=
    WhisperCpp.scripted (inl true) (inr WhisperCpp.gpu_out_of_memory) in
  let audioBlob := mkBlob [82; 73; 70; 70] "audio/wav" in
  let error :=
    WhisperCpp.mkWhisperingError "🎮 GPU Error" "out of memory"
      (WhisperCpp.action_link "Configure settings" "/settings/transcription")
  in
  Free.result (WhisperCpp.run world
                 (WhisperCpp.transcribe audioBlob "en" "/models/base.bin") tt)
  = Err error
  ∧ WhisperCpp.title error ≠ "❌ Whisper C++ Error".
Proof.
  cbv zeta. split; [reflexivity|].
  apply (transcribe_never_reports_generic_error
           (WhisperCpp.scripted (inl true) (inr WhisperCpp.gpu_out_of_memory))
           tt (mkBlob [82; 73; 70; 70] "audio/wav") "en" "/models/base.bin").
  reflexivity.
Defined.

Lemma web_record_round_trip_witness :
  let started :=
    WebRecorder.run WebRecorder.counting (WebRecorder.startRecording None)
      0%nat in
  let stopping :=
    WebRecorder.run WebRecorder.counting
      (WebRecorder.stopRecording (Free.result started).2)
      (Free.world started) in
  let finished :=
    WebRecorder.run WebRecorder.counting
      (WebRecorder.stopRecording_callback (Free.result stopping).2)
      (Free.world stopping) in
  ∃ created audioBlob,
    In (WebRecorder.recorder_created 7%nat WebRecorder.options created)
       (Free.trace started)
    ∧ Free.trace stopping = [WebRecorder.stop_requested created]
    ∧ (Free.result stopping).1 = None
    ∧ Free.trace finished
      = [WebRecorder.blob_taken created audioBlob;
         WebRecorder.recorder_destroyed created]
    ∧ Free.result finished = (WebRecorder.Resolved audioBlob, None).
Proof.
  apply (web_record_round_trip WebRecorder.counting 0%nat 7%nat).
  left. reflexivity.
Defined.

Lemma enumeration_failure_aborts_start_witness :
  let world := scripted (room (inr "audio host unavailable") (inl tt)
                           (inl [])) in
  let params := desktop_params None in
  ∃ error,
    result (run world enumerateRecordingDeviceIds tt) = Err error
    ∧ result (run world (startRecording params) tt) = Err error
    ∧ message error = "Failed to enumerate recording devices"
    ∧ cause error
      = cause_invoke
          (mkTauriInvokeError "enumerate_recording_devices"
             "audio host unavailable")
    ∧ trace (run world (startRecording params) tt)
      = [enumerated (inr "audio host unavailable")].
Proof.
  cbv zeta.
  apply (enumeration_failure_aborts_start (H := binary32_numbers)
           (scripted (room (inr "audio host unavailable") (inl tt)
                        (inl []))) tt (desktop_params None)).
  left. reflexivity.
Defined.
